(** * Pillar compilation (saltext/saltext_mysql/pillar/__init__.py)

    A shallow embedding of the pillar compiler: top-file resolution and
    merging, recursive rendering of pillar SLS files, external pillar
    aggregation, the orchestration of one compile call, the decryption pass
    and the two remote clients.

    Python values are embedded as the inductive [value]; dictionaries are
    insertion-ordered association lists with string keys.  Exceptions are
    explicit: a fallible computation returns a [result].  Collaborators the
    module imports (the merge engine, the file client, the template
    renderer, the matcher, the external pillar modules, the decrypt
    renderers, the transport channel) are fields of the record [Collab]. *)

From Stdlib Require Import String Ascii List ZArith Bool Lia Permutation Sorted.
Import ListNotations.

Local Open Scope string_scope.
Local Open Scope list_scope.

Set Warnings "-register-all".

(** ** Python values *)

Inductive value : Type :=
| VNone
| VBool (b : bool)
| VInt (z : Z)
| VStr (s : string)
| VList (l : list value)
| VDict (d : list (string * value)).

(** [bool(v)] *)
Definition truthy (v : value) : bool :=
  match v with
  | VNone => false
  | VBool b => b
  | VInt z => negb (Z.eqb z 0)
  | VStr s => negb (String.eqb s EmptyString)
  | VList l => match l with [] => false | _ => true end
  | VDict d => match d with [] => false | _ => true end
  end.

(** [isinstance(v, dict)], [isinstance(v, list)] *)
Definition is_dict (v : value) : bool :=
  match v with VDict _ => true | _ => false end.

Definition is_list (v : value) : bool :=
  match v with VList _ => true | _ => false end.

(** [hash(v)] succeeds on scalars and raises [TypeError] on containers. *)
Definition hashable (v : value) : bool :=
  match v with VList _ | VDict _ => false | _ => true end.

(** [type(v).__name__] *)
Definition type_name (v : value) : string :=
  match v with
  | VNone => "NoneType"
  | VBool _ => "bool"
  | VInt _ => "int"
  | VStr _ => "str"
  | VList _ => "list"
  | VDict _ => "dict"
  end.

(** ** Ordered dictionaries *)

Section Dict.
Context {V : Type}.

Fixpoint dict_get (k : string) (d : list (string * V)) : option V :=
  match d with
  | [] => None
  | (k', v) :: d' => if String.eqb k k' then Some v else dict_get k d'
  end.

Definition dict_has (k : string) (d : list (string * V)) : bool :=
  match dict_get k d with Some _ => true | None => false end.

(** [d[k] = v]: an existing key keeps its position. *)
Fixpoint dict_set (k : string) (v : V) (d : list (string * V))
  : list (string * V) :=
  match d with
  | [] => [(k, v)]
  | (k', v') :: d' =>
      if String.eqb k k' then (k', v) :: d' else (k', v') :: dict_set k v d'
  end.

(** [d.pop(k)] for its effect on [d]. *)
Fixpoint dict_remove (k : string) (d : list (string * V))
  : list (string * V) :=
  match d with
  | [] => []
  | (k', v') :: d' =>
      if String.eqb k k' then dict_remove k d' else (k', v') :: dict_remove k d'
  end.

Definition dict_keys (d : list (string * V)) : list string := map fst d.
End Dict.

(** [s in l] for a list of strings. *)
Fixpoint mem (s : string) (l : list string) : bool :=
  match l with
  | [] => false
  | x :: l' => if String.eqb s x then true else mem s l'
  end.

(** A [defaultdict(list)]: [d[k].append(x)]. *)
Definition dict_append {V : Type} (k : string) (x : V)
  (d : list (string * list V)) : list (string * list V) :=
  match dict_get k d with
  | Some l => dict_set k (l ++ [x]) d
  | None => d ++ [(k, [x])]
  end.

(** [d[k].extend(xs)] after [if k not in d: d[k] = []]. *)
Definition dict_extend {V : Type} (k : string) (xs : list V)
  (d : list (string * list V)) : list (string * list V) :=
  match dict_get k d with
  | Some l => dict_set k (l ++ xs) d
  | None => d ++ [(k, xs)]
  end.

(** ** Exceptions *)

Inductive exn_class : Type :=
| TypeError | ValueError | KeyError | AttributeError | StopIteration
| SaltClientError | OtherException.

Record exn : Type := Exn { exn_kind : exn_class; exn_str : string }.

Inductive result (A : Type) : Type :=
| Ok (a : A)
| Raise (e : exn).
Arguments Ok {A} a.
Arguments Raise {A} e.

Definition bind {A B : Type} (r : result A) (k : A -> result B) : result B :=
  match r with
  | Ok a => k a
  | Raise e => Raise e
  end.

(** Fuel-bounded computations: [None] when the fuel runs out. *)
Definition fbind {A B : Type} (r : option (result A))
  (k : A -> option (result B)) : option (result B) :=
  match r with
  | Some (Ok a) => k a
  | Some (Raise e) => Some (Raise e)
  | None => None
  end.

Declare Scope py_scope.
Delimit Scope py_scope with py.
Notation "x <- r ;; k" := (bind r (fun x => k))
  (at level 61, r at next level, right associativity) : py_scope.
Notation "' p <- r ;; k" := (bind r (fun x => let p := x in k))
  (at level 61, p pattern, r at next level, right associativity) : py_scope.
Notation "x <~ r ;; k" := (fbind r (fun x => k))
  (at level 61, r at next level, right associativity) : py_scope.
Notation "' p <~ r ;; k" := (fbind r (fun x => let p := x in k))
  (at level 61, p pattern, r at next level, right associativity) : py_scope.
Local Open Scope py_scope.

Definition is_TypeError (e : exn) : bool :=
  match exn_kind e with TypeError => true | _ => false end.

Definition nl : string := String (ascii_of_nat 10) EmptyString.

Definition dq : string := String (ascii_of_nat 34) EmptyString.

(** ** Strings: [str.split], [str.rpartition], [int(str)] *)

(** [split_from sep skip cur s]: [cur] is the current piece, reversed,
    and [skip] counts the characters of a separator still to be passed. *)
Fixpoint rev_string (acc s : string) : string :=
  match s with
  | EmptyString => acc
  | String c s' => rev_string (String c acc) s'
  end.

Fixpoint split_from (sep : string) (skip : nat) (cur : string) (s : string)
  : list string :=
  match s with
  | EmptyString => [rev_string EmptyString cur]
  | String c s' =>
      match skip with
      | S k => split_from sep k cur s'
      | O =>
          if String.prefix sep s
          then rev_string EmptyString cur :: split_from sep (String.length sep - 1) EmptyString s'
          else split_from sep 0 (String c cur) s'
      end
  end.

(** [s.split(sep)]; an empty separator raises [ValueError]. *)
Definition py_split (sep s : string) : result (list string) :=
  if String.eqb sep EmptyString then Raise (Exn ValueError "empty separator")
  else Ok (split_from sep 0 EmptyString s).

Fixpoint join (sep : string) (l : list string) : string :=
  match l with
  | [] => EmptyString
  | [x] => x
  | x :: l' => x ++ sep ++ join sep l'
  end.

(** [s.rpartition(sep)] as [(head, tail)]: the split at the last
    occurrence of [sep], and an empty head when there is none.  The last
    occurrence in [s] is the first occurrence of the reversed separator in
    the reversed string. *)
Fixpoint find_from (sep : string) (pre : string) (s : string)
  : option (string * string) :=
  match s with
  | EmptyString => None
  | String c s' =>
      if String.prefix sep s
      then Some (rev_string EmptyString pre,
                 String.substring (String.length sep)
                   (String.length s - String.length sep) s)
      else find_from sep (String c pre) s'
  end.

Definition py_rpartition (sep s : string) : result (string * string) :=
  if String.eqb sep EmptyString then Raise (Exn ValueError "empty separator")
  else
    match find_from (rev_string EmptyString sep) EmptyString (rev_string EmptyString s) with
    | Some (rtail, rhead) => Ok (rev_string EmptyString rhead, rev_string EmptyString rtail)
    | None => Ok (EmptyString, s)
    end.

Definition is_space (c : ascii) : bool :=
  let n := nat_of_ascii c in
  Nat.eqb n 32 || (Nat.leb 9 n && Nat.leb n 13).

Fixpoint lstrip (s : string) : string :=
  match s with
  | String c s' => if is_space c then lstrip s' else s
  | EmptyString => EmptyString
  end.

Definition strip (s : string) : string :=
  rev_string EmptyString (lstrip (rev_string EmptyString (lstrip s))).

Definition digit_of (c : ascii) : option Z :=
  let n := nat_of_ascii c in
  if Nat.leb 48 n && Nat.leb n 57 then Some (Z.of_nat (n - 48)) else None.

Fixpoint digits (acc : Z) (s : string) : option Z :=
  match s with
  | EmptyString => Some acc
  | String c s' =>
      match digit_of c with
      | Some d => digits (10 * acc + d) s'
      | None => None
      end
  end.

Definition unsigned_int (s : string) : option Z :=
  match s with
  | EmptyString => None
  | _ => digits 0 s
  end.

(** [int(s)] for a string: surrounding whitespace, an optional sign,
    decimal digits; [None] stands for [ValueError]. *)
Definition int_of_str (s : string) : option Z :=
  match strip s with
  | String "-" s' => option_map Z.opp (unsigned_int s')
  | String "+" s' => unsigned_int s'
  | s' => unsigned_int s'
  end.

(** ** Options, collaborators and the [Pillar] object *)

(** The keys of [self.opts] that the compiler reads.  After [__gen_opts],
    [file_roots] is a copy of [pillar_roots]; both are kept because the
    source reads both names. *)
Record Opts : Type := {
  opt_pillarenv : option string;
  opt_file_roots : list (string * list string);
  opt_pillar_roots : list (string * list string);
  opt_state_top : string;
  opt_pillar_source_merging_strategy : option string;
  opt_pillar : option value;
  opt_ext_pillar : option value;
  opt_exclude_ext_pillar : list string;
  opt_ext_pillar_first : bool;
  opt_pillar_opts : bool;
  opt_pillar_safe_render_error : bool;
  opt_git_pillar : bool;
  opt_role : option string;
  opt_decrypt_pillar : option value;
  opt_decrypt_pillar_delimiter : string;
  opt_decrypt_pillar_default : value;
}.

(** [dict(self.opts, pillar=p)] and [self.opts['pillar'] = p] *)
Definition set_opt_pillar (o : Opts) (p : value) : Opts :=
  {| opt_pillarenv := opt_pillarenv o;
     opt_file_roots := opt_file_roots o;
     opt_pillar_roots := opt_pillar_roots o;
     opt_state_top := opt_state_top o;
     opt_pillar_source_merging_strategy := opt_pillar_source_merging_strategy o;
     opt_pillar := Some p;
     opt_ext_pillar := opt_ext_pillar o;
     opt_exclude_ext_pillar := opt_exclude_ext_pillar o;
     opt_ext_pillar_first := opt_ext_pillar_first o;
     opt_pillar_opts := opt_pillar_opts o;
     opt_pillar_safe_render_error := opt_pillar_safe_render_error o;
     opt_git_pillar := opt_git_pillar o;
     opt_role := opt_role o;
     opt_decrypt_pillar := opt_decrypt_pillar o;
     opt_decrypt_pillar_delimiter := opt_decrypt_pillar_delimiter o;
     opt_decrypt_pillar_default := opt_decrypt_pillar_default o |}.

(** What reaches [compile_template] as its [renderers] argument: the
    renderers loaded for some options ([salt.loader.render(opts, ...)]),
    or whatever other object the caller passed in that position. *)
Inductive renderers : Type :=
| Loaded (o : Opts)
| NotRenderers (v : value).

(** A rendered top file: the optional [include] key and the environments
    with their target blocks ([saltenv -> tgt -> comps]).  A top file is
    modelled at this shape; a rendered document of another shape makes the
    Python code raise while iterating and is outside the model. *)
Record top_file : Type := {
  top_include : option (list string);
  top_envs : list (string * list (string * list value));
}.

(** A Python call: positional arguments and keyword arguments. *)
Record py_call : Type := {
  call_args : list value;
  call_kwargs : list (string * value);
}.

(** The request of the remote clients. *)
Record load : Type := {
  load_id : string;
  load_grains : value;
  load_saltenv : option string;
  load_pillarenv : option string;
  load_pillar_override : value;
  load_ver : string;
  load_cmd : string;
  load_ext : option value;
}.

(** The collaborators.  [merge a b] is
    [salt.utils.dictupdate.merge(a, b, strategy, renderer, merge_lists)] at
    the configured strategy; [get_state sls env] is
    [client.get_state(sls, env).get('dest', False)], with [None] for a
    falsy destination; [compile_top] and [compile_template] are
    [salt.template.compile_template] on a top file and on an SLS file (the
    latter with the [sls] name and the keyword [defaults]). *)
Record Collab : Type := {
  merge : value -> value -> result value;
  cache_file : string -> string -> option string;
  get_state : string -> string -> option string;
  compile_top : option string -> renderers -> string -> result top_file;
  compile_template :
    option string -> renderers -> string -> string -> list (string * value)
    -> result value;
  confirm_top : string -> list value -> bool;
  fnmatch_filter : list string -> string -> list string;
  ext_pillars : string -> option (py_call -> result value);
  gitfs_fetch : value -> result unit;
  decrypt : value -> value -> result value;
  repack_dictlist : value -> value;
  py_str : value -> string;
  master_opts : Opts -> value;
  crypted_transfer_decode_dictentry : load -> string -> result value;
}.

(** The attributes of a [Pillar] instance after [__init__]. *)
Record Pillar : Type := {
  opts : Opts;
  minion_id : string;
  ext : value;
  saltenv : option string;
  avail : list (string * list string);
  rend : renderers;
  ignored_pillars : list (string * list string);
  pillar_override : value;
}.

Definition set_ignored_pillars (self : Pillar) (ign : list (string * list string))
  : Pillar :=
  {| opts := opts self; minion_id := minion_id self; ext := ext self;
     saltenv := saltenv self; avail := avail self; rend := rend self;
     ignored_pillars := ign; pillar_override := pillar_override self |}.

Definition set_opts_rend (self : Pillar) (o : Opts) (r : renderers) : Pillar :=
  {| opts := o; minion_id := minion_id self; ext := ext self;
     saltenv := saltenv self; avail := avail self; rend := r;
     ignored_pillars := ignored_pillars self;
     pillar_override := pillar_override self |}.

(** Truth value of an optional string option ([None] or [''] are falsy). *)
Definition str_truthy (s : option string) : bool :=
  match s with
  | Some x => negb (String.eqb x EmptyString)
  | None => false
  end.

Definition opt_str_eqb (a : option string) (b : string) : bool :=
  match a with
  | Some x => String.eqb x b
  | None => false
  end.

(** ** [Pillar._get_envs] *)

Fixpoint dedup (seen l : list string) : list string :=
  match l with
  | [] => []
  | x :: l' => if mem x seen then dedup seen l' else x :: dedup (x :: seen) l'
  end.

(** The set [{'base'} | set(file_roots)]; a Python set has no specified
    iteration order, the model iterates ['base'] first and then the other
    roots in configuration order. *)
Definition _get_envs (self : Pillar) : list string :=
  dedup [] ("base" :: dict_keys (opt_file_roots (opts self))).

(** ** [Pillar.get_tops] *)

Definition tops_t : Type := list (string * list top_file).

(** Evaluating [tops[k]] on the [defaultdict(list)] creates the key. *)
Definition dict_touch {V : Type} (k : string) (d : list (string * list V))
  : list (string * list V) :=
  if dict_has k d then d else d ++ [(k, [])].

(** The two [continue] tests under the ["none"] source merging strategy. *)
Definition skip_env (self : Pillar) (env : string) : bool :=
  if opt_str_eqb (opt_pillar_source_merging_strategy (opts self)) "none"
  then (str_truthy (saltenv self) && negb (opt_str_eqb (saltenv self) env))
       || (negb (str_truthy (saltenv self)) && negb (String.eqb env "base"))
  else false.

(** The [for saltenv in self._get_envs()] loop inside the [try]: the first
    exception leaves the loop, with the tops gathered so far.  The
    receiver [tops[saltenv]] is evaluated before the argument of [append],
    so the key exists even when the render raises. *)
Fixpoint gather_tops (c : Collab) (self : Pillar) (envs : list string)
  (tops : tops_t) : tops_t * option exn :=
  match envs with
  | [] => (tops, None)
  | env :: rest =>
      if skip_env self env then gather_tops c self rest tops
      else
        match cache_file c (opt_state_top (opts self)) env with
        | None => gather_tops c self rest tops
        | Some top =>
            match compile_top c (Some top) (rend self) env with
            | Ok t => gather_tops c self rest (dict_append env t tops)
            | Raise e => (dict_touch env tops, Some e)
            end
        end
  end.

(** The whole [try] block: either the single [pillarenv] top file or the
    scan of every environment. *)
Definition primary_tops (c : Collab) (self : Pillar) : tops_t * option exn :=
  if str_truthy (opt_pillarenv (opts self)) then
    match opt_pillarenv (opts self) with
    | Some penv =>
        if dict_has penv (opt_file_roots (opts self)) then
          match compile_top c
                  (cache_file c (opt_state_top (opts self)) penv)
                  (rend self) penv with
          | Ok t => ([(penv, [t])], None)
          | Raise e => ([], Some e)
          end
        else ([], None)
    | None => ([], None)
    end
  else gather_tops c self (_get_envs self) [].

Definition primary_error (e : exn) : string :=
  "Rendering Primary Top file failed, render error:" ++ nl ++ exn_str e.

(** "Search initial top files for includes": the include lists move into
    the worklist and the key is popped from each fragment. *)
Definition collect_includes (env : string) (ctops : list top_file)
  (include : list (string * list string)) : list (string * list string) :=
  fold_left
    (fun inc ctop =>
       match top_include ctop with
       | Some l => fold_left (fun inc' sls => dict_append env sls inc') l inc
       | None => inc
       end)
    ctops include.

Definition pop_include (ctop : top_file) : top_file :=
  {| top_include := None; top_envs := top_envs ctop |}.

Definition search_includes (tops : tops_t)
  : tops_t * list (string * list string) :=
  (map (fun '(env, ctops) => (env, map pop_include ctops)) tops,
   fold_left (fun inc '(env, ctops) => collect_includes env ctops inc) tops []).

Definition include_error (sls : string) (e : exn) : string :=
  "Rendering Top file " ++ sls ++ " failed, render error:" ++ nl ++ exn_str e.

(** The body of [for sls in states], each render in its own [try]. *)
Definition include_one (c : Collab) (self : Pillar) (env sls : string)
  (st : tops_t * list string * list (string * list string))
  : tops_t * list string * list (string * list string) :=
  let '(tops, errors, done) := st in
  if match dict_get env done with Some l => mem sls l | None => false end
  then (tops, errors, dict_touch env done)
  else
    match compile_top c (get_state c sls env) (rend self) env with
    | Ok t => (dict_append env t tops, errors, dict_append env sls done)
    | Raise e =>
        (dict_touch env tops, errors ++ [include_error sls e],
         dict_append env sls done)
    end.

(** One pass of [while include]: every environment of the worklist is
    visited and then popped, so the loop body runs once. *)
Definition include_pass (c : Collab) (self : Pillar)
  (include : list (string * list string))
  (st : tops_t * list string * list (string * list string))
  : tops_t * list string * list (string * list string) :=
  fold_left
    (fun st' '(env, states) =>
       fold_left (fun st'' sls => include_one c self env sls st'') states st')
    include st.

Definition get_tops (c : Collab) (self : Pillar) : tops_t * list string :=
  let '(tops0, exc) := primary_tops c self in
  let errors :=
    match exc with Some e => [primary_error e] | None => [] end in
  let '(tops1, include) := search_includes tops0 in
  let '(tops2, errors', _) := include_pass c self include (tops1, errors, []) in
  (tops2, errors').

(** ** [Pillar.merge_tops] and [Pillar.sort_top_targets] *)

Definition top_t : Type := list (string * list (string * list value)).
Definition orders_t : Type := list (string * list (string * Z)).

(** [order = comp['order']], coerced with [int(order)] when it is not an
    [int]: a [ValueError] gives 0, a [TypeError] propagates.  A [bool] is
    an [int] in Python and sorts as 0 or 1.  The values of the model have
    no floats: [int] truncates a finite one and raises [OverflowError] on
    an infinite one, which is outside the model. *)
Definition order_of (v : value) : result Z :=
  match v with
  | VInt z => Ok z
  | VBool b => Ok (if b then 1 else 0)%Z
  | VStr s => Ok match int_of_str s with Some z => z | None => 0%Z end
  | _ => Raise (Exn TypeError "int() argument must be a string or a number")
  end.

(** The locals of one target block. *)
Record scan : Type := {
  sc_matches : list value;
  sc_states : list string;
  sc_order : Z;
  sc_ignore_missing : bool;
}.

Definition scan0 : scan :=
  {| sc_matches := []; sc_states := []; sc_order := 0;
     sc_ignore_missing := false |}.

(** The body of [for comp in ctop[saltenv][tgt]]. *)
Definition scan_comp (s : scan) (comp : value) : result scan :=
  match comp with
  | VDict d =>
      let matches :=
        if dict_has "match" d then sc_matches s ++ [comp] else sc_matches s in
      order <- match dict_get "order" d with
               | Some v => order_of v
               | None => Ok (sc_order s)
               end ;;
      let ignore :=
        match dict_get "ignore_missing" d with
        | Some v => if truthy v then true else sc_ignore_missing s
        | None => sc_ignore_missing s
        end in
      Ok {| sc_matches := matches; sc_states := sc_states s;
            sc_order := order; sc_ignore_missing := ignore |}
  | VStr name =>
      Ok {| sc_matches := sc_matches s;
            sc_states := if mem name (sc_states s) then sc_states s
                         else sc_states s ++ [name];
            sc_order := sc_order s;
            sc_ignore_missing := sc_ignore_missing s |}
  | _ => Ok s
  end.

Fixpoint scan_comps (s : scan) (comps : list value) : result scan :=
  match comps with
  | [] => Ok s
  | comp :: rest => s' <- scan_comp s comp ;; scan_comps s' rest
  end.

(** [d[env][tgt] = x] on a [defaultdict(OrderedDict)]. *)
Definition dict_set2 {V : Type} (env tgt : string) (x : V)
  (d : list (string * list (string * V))) : list (string * list (string * V)) :=
  match dict_get env d with
  | Some inner => dict_set env (dict_set tgt x inner) d
  | None => d ++ [(env, [(tgt, x)])]
  end.

Definition dict_get2 {V : Type} (env tgt : string)
  (d : list (string * list (string * V))) : option V :=
  match dict_get env d with
  | Some inner => dict_get tgt inner
  | None => None
  end.

(** The state of the loops: [top], [orders] and [self.ignored_pillars]. *)
Definition merge_state : Type :=
  (top_t * orders_t * list (string * list string))%type.

(** The body of [for tgt in targets]. *)
Definition merge_target (env tgt : string) (comps : list value)
  (st : merge_state) : result merge_state :=
  let '(top, orders, ignored) := st in
  s <- scan_comps scan0 comps ;;
  let ignored' :=
    if sc_ignore_missing s then dict_extend env (sc_states s) ignored
    else ignored in
  Ok (dict_set2 env tgt (sc_matches s ++ map VStr (sc_states s)) top,
      dict_set2 env tgt (sc_order s) orders,
      ignored').

Fixpoint merge_targets (env : string) (targets : list (string * list value))
  (st : merge_state) : result merge_state :=
  match targets with
  | [] => Ok st
  | (tgt, comps) :: rest =>
      st' <- merge_target env tgt comps st ;; merge_targets env rest st'
  end.

(** The body of [for ctop in ctops]. *)
Fixpoint merge_ctop (envs : list (string * list (string * list value)))
  (st : merge_state) : result merge_state :=
  match envs with
  | [] => Ok st
  | (env, targets) :: rest =>
      if String.eqb env "include" then merge_ctop rest st
      else st' <- merge_targets env targets st ;; merge_ctop rest st'
  end.

Fixpoint merge_ctops (ctops : list top_file) (st : merge_state)
  : result merge_state :=
  match ctops with
  | [] => Ok st
  | ctop :: rest => st' <- merge_ctop (top_envs ctop) st ;; merge_ctops rest st'
  end.

(** The loops of [merge_tops], before the final sort. *)
Fixpoint merge_tops_loop (tops : tops_t) (st : merge_state)
  : result merge_state :=
  match tops with
  | [] => Ok st
  | (_, ctops) :: rest => st' <- merge_ctops ctops st ;; merge_tops_loop rest st'
  end.

(** [sorted(l, key=...)]: a stable insertion sort on the keys. *)
Fixpoint insert_by {A : Type} (x : Z * A) (l : list (Z * A)) : list (Z * A) :=
  match l with
  | [] => [x]
  | y :: l' => if Z.leb (fst x) (fst y) then x :: l else y :: insert_by x l'
  end.

Definition sorted_by {A : Type} (l : list (Z * A)) : list (Z * A) :=
  fold_right insert_by [] l.

(** [orders[saltenv][target]], a [KeyError] when the target is absent. *)
Definition order_key (orders : orders_t) (env tgt : string) : result Z :=
  match dict_get2 env tgt orders with
  | Some z => Ok z
  | None => Raise (Exn KeyError tgt)
  end.

Fixpoint keyed (orders : orders_t) (env : string)
  (targets : list (string * list value))
  : result (list (Z * (string * list value))) :=
  match targets with
  | [] => Ok []
  | (tgt, v) :: rest =>
      k <- order_key orders env tgt ;;
      ks <- keyed orders env rest ;;
      Ok ((k, (tgt, v)) :: ks)
  end.

Fixpoint sort_top_targets (top : top_t) (orders : orders_t) : result top_t :=
  match top with
  | [] => Ok []
  | (env, targets) :: rest =>
      ks <- keyed orders env targets ;;
      rest' <- sort_top_targets rest orders ;;
      Ok ((env, map snd (sorted_by ks)) :: rest')
  end.

(** [merge_tops] returns the sorted top and has extended
    [self.ignored_pillars]. *)
Definition merge_tops (self : Pillar) (tops : tops_t) : result (Pillar * top_t) :=
  '(top, orders, ignored) <- merge_tops_loop tops ([], [], ignored_pillars self) ;;
  sorted <- sort_top_targets top orders ;;
  Ok (set_ignored_pillars self ignored, sorted).

(** ** [Pillar.get_top] and [Pillar.top_matches] *)

(** Only a [TypeError] of [merge_tops] is caught.  The entries that the
    interrupted merge added to [self.ignored_pillars] are not kept here:
    with an empty merged top no SLS file is rendered, so nothing reads
    them. *)
Definition get_top (c : Collab) (self : Pillar)
  : result (Pillar * top_t * list string) :=
  let '(tops, errors) := get_tops c self in
  match merge_tops self tops with
  | Ok (self', merged) => Ok (self', merged, errors)
  | Raise e =>
      if is_TypeError e
      then Ok (self, [],
               errors ++ ["Error encountered while rendering pillar top file."])
      else Raise e
  end.

(** The names of a matched target, appended once each. *)
Definition add_matches (data : list value) (env_matches : list string)
  : list string :=
  fold_left
    (fun acc item =>
       match item with
       | VStr s => if mem s acc then acc else acc ++ [s]
       | _ => acc
       end)
    data env_matches.

Definition top_matches (c : Collab) (self : Pillar) (top : top_t)
  : list (string * list string) :=
  fold_left
    (fun matches '(env, body) =>
       if str_truthy (opt_pillarenv (opts self))
          && negb (opt_str_eqb (opt_pillarenv (opts self)) env)
       then matches
       else
         fold_left
           (fun matches' '(tgt, data) =>
              if confirm_top c tgt data then
                let env_matches :=
                  match dict_get env matches' with Some l => l | None => [] end in
                match dict_get env matches' with
                | Some _ => dict_set env (add_matches data env_matches) matches'
                | None => matches' ++ [(env, add_matches data env_matches)]
                end
              else matches')
           body matches)
    top [].

(** ** [Pillar.render_pstate] *)

Definition q (s : string) : string := "'" ++ s ++ "'".

Definition not_available_msg (sls env : string) : string :=
  "Specified SLS " ++ q sls ++ " in environment " ++ q env
  ++ " is not available on the salt master".

Definition render_failed_msg (sls : string) (e : exn) : string :=
  "Rendering SLS " ++ q sls ++ " failed, render error:" ++ nl ++ exn_str e.

Definition render_failed_safe_msg (sls : string) : string :=
  "Rendering SLS " ++ q sls ++ " failed. Please see master log for details.".

Definition not_dict_msg (sls : string) : string :=
  "SLS " ++ q sls ++ " does not render to a dictionary".

Definition include_not_list_msg (sls : string) : string :=
  "Include Declaration in SLS " ++ q sls ++ " is not formed as a list".

(** [mods.add(sls)] *)
Definition set_add (s : string) (l : list string) : list string :=
  if mem s l then l else l ++ [s].

(** "If key is x:y, convert it to {x: {y: nstate}}" *)
Definition wrap_key (parts : list string) (nstate : value) : value :=
  fold_right (fun key_fragment acc => VDict [(key_fragment, acc)]) nstate parts.

(** The value that lands in the fourth positional parameter, [renderers],
    of a nested [render_pstate] call: [None] selects [self.rend]. *)
Definition as_renderers (v : value) : option renderers :=
  match v with
  | VNone => None
  | _ => Some (NotRenderers v)
  end.

(** [v.get(k, default)] on the body of an include entry. *)
Definition py_get (v : value) (k : string) (default : value) : result value :=
  match v with
  | VDict d => Ok match dict_get k d with Some x => x | None => default end
  | _ => Raise (Exn AttributeError "object has no attribute 'get'")
  end.

(** The locals that the include loop carries from one entry to the next. *)
Definition include_state : Type :=
  (value * list string * list string * value)%type.

(** A nested render: [(sls, mods, renderers, defaults)] to
    [(state, mods, errors)]. *)
Definition renderer_fn : Type :=
  string -> list string -> option renderers -> value ->
  option (result (value * list string * list string)).

(** The body of [for sub_sls in state.pop('include')].  The nested call
    is [self.render_pstate(sub_sls, saltenv, mods, defaults)]: the local
    [defaults] is its fourth positional argument, which the signature
    [(sls, saltenv, mods, renderers=None, defaults=None)] binds to
    [renderers]; [defaults] of the nested call keeps its default [None].
    A name that is not a string is rejected by the file client. *)
Definition include_entry (c : Collab) (rec : renderer_fn)
  (st : include_state) (entry : value) : option (result include_state) :=
  let '(state, mods, errors, defaults) := st in
  '(sub, defaults', key) <~
    Some match entry with
         | VDict [] => Raise (Exn StopIteration EmptyString)
         | VDict ((name, v) :: _) =>
             d <- py_get v "defaults" (VDict []) ;;
             k <- py_get v "key" VNone ;;
             Ok (VStr name, d, k)
         | _ => Ok (entry, defaults, VNone)
         end ;;
  match sub with
  | VStr sub_sls =>
      if mem sub_sls mods then Some (Ok (state, mods, errors, defaults'))
      else
        '(nstate, mods', err) <~ rec sub_sls mods (as_renderers defaults') VNone ;;
        state' <~
          Some (if truthy nstate then
                  wrapped <-
                    (if truthy key then
                       match key with
                       | VStr k =>
                           parts <- py_split ":" k ;; Ok (wrap_key parts nstate)
                       | _ => Raise (Exn AttributeError
                                       "object has no attribute 'split'")
                       end
                     else Ok nstate) ;;
                  merge c state wrapped
                else Ok state) ;;
        Some (Ok (state', mods', errors ++ err, defaults'))
  | _ => Some (Raise (Exn TypeError "SLS name is not a string"))
  end.

Fixpoint include_loop (c : Collab) (rec : renderer_fn)
  (entries : list value) (st : include_state) : option (result include_state) :=
  match entries with
  | [] => Some (Ok st)
  | entry :: rest =>
      st' <~ include_entry c rec st entry ;; include_loop c rec rest st'
  end.

(** [compile_template(fn_, renderers, ..., saltenv, sls, _pillar_rend=True,
    **defaults)]: unpacking something that is not a mapping raises. *)
Definition compile_sls (c : Collab) (fn_ : option string) (r : renderers)
  (env sls : string) (defaults : value) : result value :=
  match defaults with
  | VDict d => compile_template c fn_ r env sls d
  | _ => Raise (Exn TypeError "argument after ** must be a mapping")
  end.

(** [render_pstate(sls, saltenv, mods, renderers=None, defaults=None)],
    returning [(state, mods, errors)].  The recursion follows the include
    declarations of rendered files, so it is bounded by [fuel]. *)
Fixpoint render_pstate (fuel : nat) (c : Collab) (self : Pillar)
  (sls env : string) (mods : list string)
  (renderers_arg : option renderers) (defaults_arg : value)
  : option (result (value * list string * list string)) :=
  match fuel with
  | O => None
  | S fuel' =>
      let renderers :=
        match renderers_arg with Some r => r | None => rend self end in
      let defaults :=
        match defaults_arg with VNone => VDict [] | d => d end in
      let fn_ := get_state c sls env in
      let missing :=
        match fn_ with
        | Some _ => None
        | None =>
            if mem sls match dict_get env (ignored_pillars self) with
                       | Some l => l
                       | None => []
                       end
            then Some None
            else
              match dict_get env (opt_pillar_roots (opts self)) with
              | Some (_ :: _) => Some (Some (not_available_msg sls env))
              | _ => Some None
              end
        end in
      match missing with
      | Some None => Some (Ok (VNone, mods, []))
      | _ =>
          let errors0 :=
            match missing with Some (Some msg) => [msg] | _ => [] end in
          let '(state, errors1) :=
            match compile_sls c fn_ renderers env sls defaults with
            | Ok v => (v, errors0)
            | Raise e =>
                (VNone,
                 errors0 ++
                 [if opt_pillar_safe_render_error (opts self)
                  then render_failed_safe_msg sls
                  else render_failed_msg sls e])
            end in
          let mods1 := set_add sls mods in
          if truthy state then
            match state with
            | VDict d =>
                match dict_get "include" d with
                | None => Some (Ok (state, mods1, errors1))
                | Some (VList entries) =>
                    '(state', mods', errors', _) <~
                      include_loop c
                        (fun sub m r dflt => render_pstate fuel' c self sub env m r dflt)
                        entries
                        (VDict (dict_remove "include" d), mods1, errors1, defaults) ;;
                    Some (Ok (state', mods', errors'))
                | Some _ =>
                    Some (Ok (state, mods1, errors1 ++ [include_not_list_msg sls]))
                end
            | _ => Some (Ok (state, mods1, errors1 ++ [not_dict_msg sls]))
            end
          else Some (Ok (state, mods1, errors1))
      end
  end.

(** ** [Pillar.render_pillar] *)

Definition no_env_msg (env : string) : string :=
  "No matching pillar environment for environment " ++ q env ++ " found".

(** The first inner loop: glob expansion of the requested names. *)
Definition expand_matches (c : Collab) (self : Pillar) (env : string)
  (pstates : list string) (errors : list string) : list string * list string :=
  fold_left
    (fun '(pstatefiles, errs) sls_match =>
       let '(matched_pstates, errs') :=
         match dict_get env (avail self) with
         | Some l => (fnmatch_filter c l sls_match, errs)
         | None => ([], errs ++ [no_env_msg env])
         end in
       match matched_pstates with
       | [] => (pstatefiles ++ [sls_match], errs')
       | _ => (pstatefiles ++ matched_pstates, errs')
       end)
    pstates ([], errors).

(** The second inner loop: render each file with renderers loaded for
    [dict(self.opts, pillar=pillar)] and merge what it yields. *)
Fixpoint render_files (fuel : nat) (c : Collab) (self : Pillar) (env : string)
  (pstatefiles : list string) (pillar : value) (mods errors : list string)
  : option (result (value * list string * list string)) :=
  match pstatefiles with
  | [] => Some (Ok (pillar, mods, errors))
  | sls :: rest =>
      '(pstate, mods', err) <~
        render_pstate fuel c self sls env mods
          (Some (Loaded (set_opt_pillar (opts self) pillar))) VNone ;;
      let errors' := errors ++ err in
      match pstate with
      | VNone => render_files fuel c self env rest pillar mods' errors'
      | VDict _ =>
          pillar' <~ Some (merge c pillar pstate) ;;
          render_files fuel c self env rest pillar' mods' errors'
      | _ => render_files fuel c self env rest pillar mods' errors'
      end
  end.

Fixpoint render_envs (fuel : nat) (c : Collab) (self : Pillar)
  (matches : list (string * list string)) (pillar : value)
  (errors : list string) : option (result (value * list string)) :=
  match matches with
  | [] => Some (Ok (pillar, errors))
  | (env, pstates) :: rest =>
      let '(pstatefiles, errors1) := expand_matches c self env pstates errors in
      '(pillar', _, errors2) <~
        render_files fuel c self env pstatefiles pillar [] errors1 ;;
      render_envs fuel c self rest pillar' errors2
  end.

Definition opt_pillar_or_empty (o : Opts) : value :=
  match opt_pillar o with Some p => p | None => VDict [] end.

Definition render_pillar (fuel : nat) (c : Collab) (self : Pillar)
  (matches : list (string * list string)) (errors : list string)
  : option (result (value * list string)) :=
  pillar <~ Some (merge c (opt_pillar_or_empty (opts self)) (pillar_override self)) ;;
  render_envs fuel c self matches pillar errors.

(** ** [Pillar._external_pillar_data] and [Pillar.ext_pillar] *)

(** The call that [_external_pillar_data] makes on the registered source:
    keyword style for a mapping, positional for a sequence, one positional
    value otherwise; the source named [git] with arguments that are not a
    mapping receives [(minion_id, val, pillar_dirs)] and no pillar. *)
Definition external_pillar_call (self : Pillar) (pillar val pillar_dirs : value)
  (key : string) : py_call :=
  match val with
  | VDict d =>
      {| call_args := [VStr (minion_id self); pillar]; call_kwargs := d |}
  | VList l =>
      if String.eqb key "git"
      then {| call_args := [VStr (minion_id self); val; pillar_dirs];
              call_kwargs := [] |}
      else {| call_args := VStr (minion_id self) :: pillar :: l;
              call_kwargs := [] |}
  | _ =>
      if String.eqb key "git"
      then {| call_args := [VStr (minion_id self); val; pillar_dirs];
              call_kwargs := [] |}
      else {| call_args := [VStr (minion_id self); pillar; val];
              call_kwargs := [] |}
  end.

Definition _external_pillar_data (c : Collab) (self : Pillar)
  (pillar val pillar_dirs : value) (key : string) : result value :=
  match ext_pillars c key with
  | Some f => f (external_pillar_call self pillar val pillar_dirs key)
  | None => Raise (Exn KeyError key)
  end.

Definition malformed_msg : string :=
  "The " ++ dq ++ "ext_pillar" ++ dq ++ " option is malformed".

Definition ext_failed_msg (key : string) (e : exn) : string :=
  "Failed to load ext_pillar " ++ key ++ ": " ++ exn_str e.

(** The body of [for key, val in six.iteritems(run)]: an unregistered
    name is skipped, an exception of the source is recorded and leaves
    [ext] as it was. *)
Definition dispatch_item (c : Collab) (self : Pillar)
  (pillar pillar_dirs : value) (st : list string * value)
  (item : string * value) : list string * value :=
  let '(errors, ext_) := st in
  let '(key, val) := item in
  match ext_pillars c key with
  | None => (errors, ext_)
  | Some _ =>
      match _external_pillar_data c self pillar val pillar_dirs key with
      | Ok e => (errors, e)
      | Raise exc => (errors ++ [ext_failed_msg key exc], ext_)
      end
  end.

(** The loop [for run in self.opts['ext_pillar']], with its locals
    [pillar], [errors] and [ext]. *)
Fixpoint ext_pillar_runs (c : Collab) (self : Pillar) (pillar_dirs : value)
  (runs : list value) (pillar : value) (errors : list string) (ext_ : value)
  : result (value * list string) :=
  match runs with
  | [] => Ok (pillar, errors)
  | VDict [] :: _ => Raise (Exn StopIteration EmptyString)
  | VDict ((key0, val0) :: items) :: rest =>
      if mem key0 (opt_exclude_ext_pillar (opts self))
      then ext_pillar_runs c self pillar_dirs rest pillar errors ext_
      else
        let '(errors', ext') :=
          fold_left (dispatch_item c self pillar pillar_dirs)
            ((key0, val0) :: items) (errors, ext_) in
        if truthy ext'
        then pillar' <- merge c pillar ext' ;;
             ext_pillar_runs c self pillar_dirs rest pillar' errors' VNone
        else ext_pillar_runs c self pillar_dirs rest pillar errors' ext'
  | _ :: _ => Ok (VDict [], errors ++ [malformed_msg])
  end.

(** ['git' in self.ext] *)
Fixpoint contains_str (sub s : string) : bool :=
  String.prefix sub s ||
  match s with
  | EmptyString => false
  | String _ s' => contains_str sub s'
  end.

Definition py_in (k : string) (v : value) : result bool :=
  match v with
  | VDict d => Ok (dict_has k d)
  | VList l =>
      Ok (existsb (fun x => match x with VStr s => String.eqb s k | _ => false end) l)
  | VStr s => Ok (contains_str k s)
  | _ => Raise (Exn TypeError "argument is not iterable")
  end.

(** The on-demand [git_pillar] fetch that opens [ext_pillar]; a
    [TypeError] is swallowed by the [except] clause. *)
Definition git_prefetch (c : Collab) (self : Pillar) : result unit :=
  let attempt :=
    if truthy (ext self) then
      has_git <- py_in "git" (ext self) ;;
      if has_git && negb (opt_str_eqb (opt_role (opts self)) "minion") then
        match ext self with
        | VDict d =>
            match dict_get "git" d with
            | Some remotes => gitfs_fetch c remotes
            | None => Raise (Exn KeyError "git")
            end
        | _ => Raise (Exn TypeError "indices must be integers")
        end
      else Ok tt
    else Ok tt in
  match attempt with
  | Ok _ => Ok tt
  | Raise e => if is_TypeError e then Ok tt else Raise e
  end.

Definition ext_pillar (c : Collab) (self : Pillar) (pillar pillar_dirs : value)
  (errors : list string) : result (value * list string) :=
  _ <- git_prefetch c self ;;
  match opt_ext_pillar (opts self) with
  | None => Ok (pillar, errors)
  | Some (VList runs) =>
      pillar' <- (if truthy (pillar_override self)
                  then merge c pillar (pillar_override self)
                  else Ok pillar) ;;
      ext_pillar_runs c self pillar_dirs runs pillar' errors VNone
  | Some _ => Ok (pillar, errors ++ [malformed_msg])
  end.

(** ** [Pillar.decrypt_pillar] *)

Fixpoint traverse_parts (data : value) (parts : list string) : option value :=
  match parts with
  | [] => Some data
  | each :: rest =>
      match data with
      | VDict d =>
          match dict_get each d with
          | Some v => traverse_parts v rest
          | None => None
          end
      | _ => None
      end
  end.

(** Modelled from the spec: [salt.utils.traverse_dict], which the module
    calls and does not define; "traverse the tree by splitting on the
    configured delimiter", with [default] when the path does not resolve. *)
Definition traverse_dict (data : value) (key : string) (default : value)
  (delimiter : string) : result value :=
  parts <- py_split delimiter key ;;
  Ok match traverse_parts data parts with Some v => v | None => default end.

(** [ptr[child] = ret] *)
Definition py_setitem (child : string) (ret : value) (ptr : value)
  : result value :=
  match ptr with
  | VDict d => Ok (VDict (dict_set child ret d))
  | _ => Raise (Exn TypeError "object does not support item assignment")
  end.

(** An update of the object found at [parts]; the pillar is a tree, so the
    update in place is a replacement along the path. *)
Fixpoint update_at (parts : list string) (f : value -> result value)
  (data : value) : result value :=
  match parts with
  | [] => f data
  | each :: rest =>
      match data with
      | VDict d =>
          match dict_get each d with
          | Some v => v' <- update_at rest f v ;; Ok (VDict (dict_set each v' d))
          | None => Ok data
          end
      | _ => Ok data
      end
  end.

Definition is_none (v : value) : bool :=
  match v with VNone => true | _ => false end.

Definition decrypt_failed_msg (key : string) (e : exn) : string :=
  "Failed to decrypt pillar key " ++ q key ++ ": " ++ exn_str e.

(** The [try] block of one path.  A scalar is replaced in its parent by
    the value [decrypt] returns.  For a container the source assigns
    nothing and does not use the returned value: there the tree changes
    only through what the collaborator does to the container in place, an
    effect that the function [decrypt] of the model does not have. *)
Definition decrypt_at (c : Collab) (self : Pillar) (pillar : value)
  (key : string) (rend_ : value) (ptr : value) : result value :=
  let delim := opt_decrypt_pillar_delimiter (opts self) in
  ret <- decrypt c ptr
           (if truthy rend_ then rend_
            else opt_decrypt_pillar_default (opts self)) ;;
  if hashable ptr then
    '(parent, child) <- py_rpartition delim key ;;
    if String.eqb parent EmptyString then py_setitem child ret pillar
    else
      parts <- py_split delim parent ;;
      match traverse_parts pillar parts with
      | Some VNone | None => Ok pillar
      | Some _ => update_at parts (py_setitem child ret) pillar
      end
  else Ok pillar.

(** The body of [for key, rend in six.iteritems(decrypt_pillar)]. *)
Definition decrypt_entry (c : Collab) (self : Pillar)
  (st : value * list string) (entry : string * value)
  : result (value * list string) :=
  let '(pillar, errors) := st in
  let '(key, rend_) := entry in
  ptr <- traverse_dict pillar key VNone
           (opt_decrypt_pillar_delimiter (opts self)) ;;
  if is_none ptr then Ok (pillar, errors)
  else
    match decrypt_at c self pillar key rend_ ptr with
    | Ok pillar' => Ok (pillar', errors)
    | Raise exc => Ok (pillar, errors ++ [decrypt_failed_msg key exc])
    end.

Fixpoint decrypt_entries (c : Collab) (self : Pillar)
  (entries : list (string * value)) (st : value * list string)
  : result (value * list string) :=
  match entries with
  | [] => Ok st
  | entry :: rest =>
      st' <- decrypt_entry c self st entry ;; decrypt_entries c self rest st'
  end.

Definition as_items (v : value) : list (string * value) :=
  match v with VDict d => d | _ => [] end.

(** [decrypt_pillar(pillar)]: the pillar as it is after the pass, and the
    returned errors. *)
Definition decrypt_pillar (c : Collab) (self : Pillar) (pillar : value)
  : result (value * list string) :=
  match opt_decrypt_pillar (opts self) with
  | Some cfg =>
      if truthy cfg then
        let decrypt_cfg :=
          if is_dict cfg then as_items cfg else as_items (repack_dictlist c cfg) in
        let errors :=
          match decrypt_cfg with
          | [] => ["decrypt_pillar config option is malformed"]
          | _ => []
          end in
        decrypt_entries c self decrypt_cfg (pillar, errors)
      else Ok (pillar, [])
  | None => Ok (pillar, [])
  end.

(** ** [Pillar.compile_pillar] *)

Definition errors_value (errors : list string) : value :=
  VList (map VStr errors).

(** The part of [compile_pillar] that orders the two sources, up to the
    tree [pillar] and the list [errors] that the assembly steps receive;
    [ext] and [pillar_dirs] are the arguments of [compile_pillar]. *)
Definition compile_sources (fuel : nat) (c : Collab) (self0 : Pillar)
  (ext_flag : bool) (pillar_dirs : value)
  : option (result (Pillar * value * list string * list string)) :=
  '(self, top, top_errors) <~ Some (get_top c self0) ;;
  if ext_flag then
    if opt_ext_pillar_first (opts self) then
      '(base, errors) <~
        Some (ext_pillar c self (pillar_override self) pillar_dirs []) ;;
      let o := set_opt_pillar (opts self) base in
      let self1 := set_opts_rend self o (Loaded o) in
      let matches := top_matches c self1 top in
      '(pillar, errors') <~ render_pillar fuel c self1 matches errors ;;
      pillar' <~ Some (merge c base pillar) ;;
      Some (Ok (self1, pillar', errors', top_errors))
    else
      let matches := top_matches c self top in
      '(pillar, errors) <~ render_pillar fuel c self matches [] ;;
      '(pillar', errors') <~ Some (ext_pillar c self pillar pillar_dirs errors) ;;
      Some (Ok (self, pillar', errors', top_errors))
  else
    let matches := top_matches c self top in
    '(pillar, errors) <~ render_pillar fuel c self matches [] ;;
    Some (Ok (self, pillar, errors, top_errors)).

(** [pillar.setdefault('_errors', []).extend(decrypt_errors)] *)
Definition extend_errors (pillar : value) (decrypt_errors : list string)
  : result value :=
  match pillar with
  | VDict d =>
      match dict_get "_errors" d with
      | None => Ok (VDict (dict_set "_errors" (errors_value decrypt_errors) d))
      | Some (VList l) =>
          Ok (VDict (dict_set "_errors" (VList (l ++ map VStr decrypt_errors)) d))
      | Some _ => Raise (Exn AttributeError "object has no attribute 'extend'")
      end
  | _ => Raise (Exn AttributeError "object has no attribute 'setdefault'")
  end.

(** The assembly steps after the sources: the options snapshot, the
    diagnostics key, the override merged on top and the decryption pass. *)
Definition assemble (c : Collab) (self : Pillar) (pillar : value)
  (errors top_errors : list string) : result value :=
  let errors1 := errors ++ top_errors in
  pillar1 <- (if opt_pillar_opts (opts self)
              then py_setitem "master" (master_opts c (opts self)) pillar
              else Ok pillar) ;;
  pillar2 <- match errors1 with
             | [] => Ok pillar1
             | _ => py_setitem "_errors" (errors_value errors1) pillar1
             end ;;
  pillar3 <- (if truthy (pillar_override self)
              then merge c pillar2 (pillar_override self)
              else Ok pillar2) ;;
  '(pillar4, decrypt_errors) <- decrypt_pillar c self pillar3 ;;
  match decrypt_errors with
  | [] => Ok pillar4
  | _ => extend_errors pillar4 decrypt_errors
  end.

Definition compile_pillar (fuel : nat) (c : Collab) (self0 : Pillar)
  (ext_flag : bool) (pillar_dirs : value) : option (result value) :=
  '(self, pillar, errors, top_errors) <~
    compile_sources fuel c self0 ext_flag pillar_dirs ;;
  Some (assemble c self pillar errors top_errors).

(** ** The remote clients *)

(** The attributes shared by [RemotePillar] and [AsyncRemotePillar]. *)
Record Remote : Type := {
  remote_environment : option string;
  remote_pillarenv : option string;
  remote_ext : value;
  remote_grains : value;
  remote_minion_id : string;
  remote_pillar_override : value;
}.

Definition remote_load (self : Remote) : load :=
  {| load_id := remote_minion_id self;
     load_grains := remote_grains self;
     load_saltenv := remote_environment self;
     load_pillarenv := remote_pillarenv self;
     load_pillar_override := remote_pillar_override self;
     load_ver := "2";
     load_cmd := "_pillar";
     load_ext := if truthy (remote_ext self) then Some (remote_ext self)
                 else None |}.

Definition bad_pillar_msg (c : Collab) (ret_pillar : value) : string :=
  "Got a bad pillar from master, type " ++ type_name ret_pillar
  ++ ", expecting dict: " ++ py_str c ret_pillar.

Module AsyncRemotePillar.
(** The coroutine yields once on the channel; its outcome is the value
    of [tornado.gen.Return] or the exception it raises. *)
Definition compile_pillar (c : Collab) (self : Remote) : result value :=
  match crypted_transfer_decode_dictentry c (remote_load self) "pillar" with
  | Raise _ => Raise (Exn SaltClientError "Exception getting pillar.")
  | Ok ret_pillar =>
      if is_dict ret_pillar then Ok ret_pillar
      else Raise (Exn SaltClientError (bad_pillar_msg c ret_pillar))
  end.
End AsyncRemotePillar.

Module RemotePillar.
Definition compile_pillar (c : Collab) (self : Remote) : result value :=
  ret_pillar <- crypted_transfer_decode_dictentry c (remote_load self) "pillar" ;;
  if is_dict ret_pillar then Ok ret_pillar else Ok (VDict []).
End RemotePillar.

(** ** A merge engine *)

(** The loop [for key in updkeys] of the recursive update, with the
    treatment of a key that both sides define as a parameter. *)
Fixpoint update_items (f : value -> value -> value)
  (d u : list (string * value)) {struct u} : list (string * value) :=
  match u with
  | [] => d
  | (k, val) :: u' =>
      update_items f
        (dict_set k
           match dict_get k d with
           | Some dest_subkey => f dest_subkey val
           | None => val
           end d)
        u'
  end.

(** What ends under a key that both sides define: two mappings are
    updated key by key, anything else is replaced by the later value. *)
Fixpoint update_value (dest upd : value) {struct upd} : value :=
  match dest, upd with
  | VDict d, VDict u => VDict (update_items update_value d u)
  | _, _ => upd
  end.

(** Modelled from the spec: the MergeEngine collaborator
    ([salt.utils.dictupdate.merge], imported and not defined by the
    module) at its recursive strategy without list merging: "later
    arguments override earlier arguments' scalar keys", nested mappings
    are merged key by key, and an argument that is not a mapping is a
    [TypeError]. *)
Definition merge_recurse (obj_a obj_b : value) : result value :=
  if is_dict obj_a && is_dict obj_b then Ok (update_value obj_a obj_b)
  else Raise (Exn TypeError
                "Cannot update using non-dict types in dictupdate.update()").


(** Mappings with distinct keys at every level: the values that a Python
    dictionary can hold. *)
Fixpoint nodupb (l : list string) : bool :=
  match l with
  | [] => true
  | x :: l' => negb (mem x l') && nodupb l'
  end.

Fixpoint wf_value (v : value) : bool :=
  match v with
  | VList l => forallb wf_value l
  | VDict d =>
      nodupb (map fst d)
      && forallb (fun kv => match kv with (_, x) => wf_value x end) d
  | _ => true
  end.

(** The law of the merge engine that the conflict claims rest on: a
    scalar found at a path of the later argument is found at the same
    path of the result. *)
Definition later_wins (m : value -> value -> result value) : Prop :=
  forall a b r path v,
    m a b = Ok r -> wf_value b = true ->
    traverse_parts b path = Some v -> hashable v = true ->
    traverse_parts r path = Some v.

(** ** The target blocks in the order [merge_tops] visits them *)

Definition block : Type := (string * string * list value)%type.

Definition ctop_blocks (envs : list (string * list (string * list value)))
  : list block :=
  flat_map
    (fun '(env, targets) =>
       if String.eqb env "include" then []
       else map (fun '(tgt, comps) => (env, tgt, comps)) targets)
    envs.

Definition top_blocks (tops : tops_t) : list block :=
  flat_map (fun '(_, ctops) => flat_map (fun ctop => ctop_blocks (top_envs ctop)) ctops)
    tops.

Fixpoint merge_blocks (blocks : list block) (st : merge_state)
  : result merge_state :=
  match blocks with
  | [] => Ok st
  | (env, tgt, comps) :: rest =>
      st' <- merge_target env tgt comps st ;; merge_blocks rest st'
  end.

Definition same_target (env tgt : string) (b : block) : bool :=
  let '(env', tgt', _) := b in String.eqb env env' && String.eqb tgt tgt'.

(** Top data whose environments each hold distinct targets. *)
Definition targets_distinct {V : Type} (top : list (string * list (string * V)))
  : Prop :=
  Forall (fun et => NoDup (dict_keys (snd et))) top.

(** [comps] holds a mapping with an [order] key. *)
Definition has_order (comps : list value) : bool :=
  existsb (fun comp => match comp with
                       | VDict d => dict_has "order" d
                       | _ => false
                       end) comps.

(** ** The aggregation of external sources as the specification words it *)

(** One source entry [{key: val}]: excluded or unregistered names are
    skipped; the source is dispatched with the running pillar; an
    exception appends one error; a truthy result is merged at once. *)
Definition spec_source_step (c : Collab) (self : Pillar) (pillar_dirs : value)
  (st : value * list string) (entry : string * value)
  : result (value * list string) :=
  let '(pillar, errors) := st in
  let '(key, val) := entry in
  if mem key (opt_exclude_ext_pillar (opts self)) then Ok st
  else
    match ext_pillars c key with
    | None => Ok st
    | Some source =>
        match source (external_pillar_call self pillar val pillar_dirs key) with
        | Raise exc => Ok (pillar, errors ++ [ext_failed_msg key exc])
        | Ok contribution =>
            if truthy contribution
            then pillar' <- merge c pillar contribution ;; Ok (pillar', errors)
            else Ok st
        end
    end.

Fixpoint spec_aggregate (c : Collab) (self : Pillar) (pillar_dirs : value)
  (entries : list (string * value)) (st : value * list string)
  : result (value * list string) :=
  match entries with
  | [] => Ok st
  | entry :: rest =>
      st' <- spec_source_step c self pillar_dirs st entry ;;
      spec_aggregate c self pillar_dirs rest st'
  end.

Definition single_key (entry : string * value) : value := VDict [entry].

(** A chain of merges from a starting tree. *)
Fixpoint merge_chain (c : Collab) (pillar : value) (contributions : list value)
  : result value :=
  match contributions with
  | [] => Ok pillar
  | x :: rest => pillar' <- merge c pillar x ;; merge_chain c pillar' rest
  end.

(** ** Sample configurations *)

Module Sample.

Definition roots (envs : list string) : list (string * list string) :=
  map (fun env => (env, [("/srv/pillar/" ++ env)%string])) envs.

Definition sample_opts (envs : list string) (ext_pillar_cfg : option value)
  (ext_first : bool) (decrypt_cfg : option value) : Opts :=
  {| opt_pillarenv := None;
     opt_file_roots := roots envs;
     opt_pillar_roots := roots envs;
     opt_state_top := "salt://top.sls";
     opt_pillar_source_merging_strategy := None;
     opt_pillar := None;
     opt_ext_pillar := ext_pillar_cfg;
     opt_exclude_ext_pillar := [];
     opt_ext_pillar_first := ext_first;
     opt_pillar_opts := false;
     opt_pillar_safe_render_error := true;
     opt_git_pillar := false;
     opt_role := Some "master";
     opt_decrypt_pillar := decrypt_cfg;
     opt_decrypt_pillar_delimiter := ":";
     opt_decrypt_pillar_default := VStr "gpg" |}.

Definition sample_self (o : Opts) (states : list string) : Pillar :=
  {| opts := o;
     minion_id := "web1";
     ext := VNone;
     saltenv := None;
     avail := map (fun '(env, _) => (env, states)) (opt_file_roots o);
     rend := Loaded o;
     ignored_pillars := [];
     pillar_override := VDict [] |}.

(** Files are found under their own name; the glob filter keeps the
    names equal to the pattern. *)
Definition sample_collab
  (tops : string -> result top_file)
  (files : string -> option (renderers -> list (string * value) -> result value))
  (sources : string -> option (py_call -> result value))
  (reply : result value) : Collab :=
  {| merge := merge_recurse;
     cache_file := fun _ env => Some ("/srv/pillar/" ++ env ++ "/top.sls")%string;
     get_state := fun sls env =>
       match files sls with
       | Some _ => Some ("/srv/pillar/" ++ env ++ "/" ++ sls ++ ".sls")%string
       | None => None
       end;
     compile_top := fun _ _ env => tops env;
     compile_template := fun fn_ r _ sls defaults =>
       match fn_, files sls with
       | Some _, Some render => render r defaults
       | _, _ => Ok (VDict [])
       end;
     confirm_top := fun _ _ => true;
     fnmatch_filter := fun names pat => filter (String.eqb pat) names;
     ext_pillars := sources;
     gitfs_fetch := fun _ => Ok tt;
     decrypt := fun ptr _ => Ok ptr;
     repack_dictlist := fun _ => VDict [];
     py_str := fun v => type_name v;
     master_opts := fun _ => VDict [];
     crypted_transfer_decode_dictentry := fun _ _ => reply |}.

Definition no_tops : string -> result top_file :=
  fun _ => Ok {| top_include := None; top_envs := [] |}.

Definition no_files
  : string -> option (renderers -> list (string * value) -> result value) :=
  fun _ => None.

Definition no_sources : string -> option (py_call -> result value) :=
  fun _ => None.

(** A top file that sends every minion of [base] to the state [foo]. *)
Definition top_foo : string -> result top_file :=
  fun _ => Ok {| top_include := None;
                 top_envs := [("base", [("*", [VStr "foo"])])] |}.

(** The external source [s1] contributes [k = 1]; the state file [foo]
    sets [k = 3]. *)
Definition k_is (z : Z) : value := VDict [("k", VInt z)].

Definition ext_first_collab : Collab :=
  sample_collab top_foo
    (fun sls => if String.eqb sls "foo" then Some (fun _ _ => Ok (k_is 3))
                else None)
    (fun key => if String.eqb key "s1" then Some (fun _ => Ok (k_is 1))
                else None)
    (Ok (VDict [])).

Definition ext_first_self : Pillar :=
  sample_self
    (sample_opts ["base"] (Some (VList [VDict [("s1", VDict [])]])) true None)
    ["foo"].

(** Two fragments of [base] name the same target. *)
Definition fragment_a : top_file :=
  {| top_include := None;
     top_envs :=
       [("base", [("*", [VDict [("order", VInt 5)];
                         VDict [("match", VStr "glob")];
                         VStr "a"])])] |}.

Definition fragment_b : top_file :=
  {| top_include := None;
     top_envs := [("base", [("*", [VStr "b"])])] |}.

Definition two_fragments : tops_t := [("base", [fragment_a; fragment_b])].

Definition plain_self : Pillar :=
  sample_self (sample_opts ["base"] None false None) [].

(** The top file of [base] fails to render, the one of [dev] is fine. *)
Definition base_fails_collab : Collab :=
  sample_collab
    (fun env => if String.eqb env "base"
                then Raise (Exn OtherException "found character that cannot start any token")
                else Ok fragment_b)
    no_files no_sources (Ok (VDict [])).

Definition two_env_self : Pillar :=
  sample_self (sample_opts ["base"; "dev"] None false None) [].

(** [foo] includes [bar] with defaults and a key; [bar] reports the
    [renderers] and the [defaults] that its render received. *)
Definition include_with_defaults : value :=
  VDict [("include",
          VList [VDict [("bar", VDict [("defaults", VDict [("name", VStr "v")]);
                                       ("key", VStr "a")])]])].

Definition echo_collab : Collab :=
  sample_collab no_tops
    (fun sls =>
       if String.eqb sls "foo" then Some (fun _ _ => Ok include_with_defaults)
       else if String.eqb sls "bar" then
         Some (fun r defaults =>
                 Ok (VDict [("renderers",
                             match r with
                             | NotRenderers v => v
                             | Loaded _ => VStr "loaded"
                             end);
                            ("defaults", VDict defaults)]))
       else None)
    no_sources (Ok (VDict [])).

(** [foo] includes [bar] under the key [a:b]; [bar] renders to [x = 1]. *)
Definition include_with_key : value :=
  VDict [("own", VInt 7);
         ("include", VList [VDict [("bar", VDict [("key", VStr "a:b")])]])].

Definition key_collab : Collab :=
  sample_collab no_tops
    (fun sls =>
       if String.eqb sls "foo" then Some (fun _ _ => Ok include_with_key)
       else if String.eqb sls "bar" then
         Some (fun _ _ => Ok (VDict [("x", VInt 1)]))
       else None)
    no_sources (Ok (VDict [])).

(** Sources: [s1] contributes [k = 1], [s2] raises, [git] reports the
    positional arguments of its call. *)
Definition sources_collab : Collab :=
  sample_collab no_tops no_files
    (fun key =>
       if String.eqb key "s1" then Some (fun _ => Ok (k_is 1))
       else if String.eqb key "s2" then
         Some (fun _ => Raise (Exn OtherException "connection refused"))
       else if String.eqb key "git" then
         Some (fun call => Ok (VDict [("seen", VList (call_args call))]))
       else None)
    (Ok (VDict [])).

Definition git_remotes : value :=
  VList [VStr "master https://example.com/pillar.git"].

Definition sources_self (cfg : value) : Pillar :=
  sample_self (sample_opts ["base"] (Some cfg) false None) [].

(** The master answers with a list. *)
Definition bad_reply_collab : Collab :=
  sample_collab no_tops no_files no_sources (Ok (VList [VStr "oops"])).

Definition remote : Remote :=
  {| remote_environment := Some "base";
     remote_pillarenv := None;
     remote_ext := VNone;
     remote_grains := VDict [];
     remote_minion_id := "web1";
     remote_pillar_override := VDict [] |}.

Definition decrypt_self : Pillar :=
  sample_self
    (sample_opts ["base"] None false
       (Some (VDict [("secrets:vault", VStr "gpg")])))
    [].

End Sample.

(** ** On-demand external pillar data ([__valid_on_demand_ext_pillar]) *)

(** [[x for x in self.ext if x not in on_demand]] is empty; a [TypeError]
    of the membership test (an option that is no container) is caught and
    makes the request invalid, as does an [ext] that is not a mapping. *)
Fixpoint all_allowed (keys : list string) (on_demand : value) : result bool :=
  match keys with
  | [] => Ok true
  | x :: rest =>
      allowed <- py_in x on_demand ;;
      others <- all_allowed rest on_demand ;;
      Ok (allowed && others)
  end.

(** [', '.join(on_demand)], evaluated for the log line of a rejected
    request: it needs every member of the allow-list to be a string. *)
Definition joinable (on_demand : value) : bool :=
  match on_demand with
  | VList l => forallb (fun x => match x with VStr _ => true | _ => false end) l
  | VDict _ => true
  | VStr _ => true
  | _ => false
  end.

(** [__valid_on_demand_ext_pillar]: the [TypeError] of the membership
    test is caught; the join of the rejection path is outside the [try]
    and its [TypeError] propagates. *)
Definition valid_on_demand_ext_pillar (ext_ on_demand : value) : result bool :=
  match ext_ with
  | VDict d =>
      match all_allowed (dict_keys d) on_demand with
      | Ok true => Ok true
      | Ok false =>
          if joinable on_demand then Ok false
          else Raise (Exn TypeError "sequence item: expected string")
      | Raise e => if is_TypeError e then Ok false else Raise e
      end
  | _ => Ok false
  end.

(** The last step of [__gen_opts]: a valid on-demand request is appended
    to the configured [ext_pillar] list, or becomes the list when the
    option is absent; [append] on an option that is not a list raises. *)
Definition gen_opts_ext_pillar (ext_ on_demand : value)
  (ext_pillar_cfg : option value) : result (option value) :=
  if truthy ext_ then
    valid <- valid_on_demand_ext_pillar ext_ on_demand ;;
    if valid then
      match ext_pillar_cfg with
      | Some (VList l) => Ok (Some (VList (l ++ [ext_])))
      | Some _ => Raise (Exn AttributeError "object has no attribute 'append'")
      | None => Ok (Some (VList [ext_]))
      end
    else Ok ext_pillar_cfg
  else Ok ext_pillar_cfg.

(** ** [PillarCache] *)

(** The cache, keyed by minion id and then by environment.  The backend
    decides when an entry expires; between the calls modelled here no
    entry expires. *)
Definition cache_t : Type := list (string * list (string * value)).

Module PillarCache.

(** [__init__]: a missing environment is [base]. *)
Definition saltenv_of (env : option string) : string :=
  match env with
  | Some e => e
  | None => "base"
  end.

(** [fetch_pillar]: the compile of a fresh [Pillar], with the default
    arguments of [compile_pillar]. *)
Definition fetch_pillar (fuel : nat) (c : Collab) (fresh : Pillar)
  : option (result value) :=
  compile_pillar fuel c fresh true VNone.

(** [compile_pillar], with the compile that a miss triggers as
    [fetch]: the returned tree and the cache after the call. *)
Definition compile_pillar (fetch : option (result value))
  (minion : string) (env : option string) (cache : cache_t)
  : option (result (value * cache_t)) :=
  match dict_get minion cache with
  | Some envs =>
      match dict_get (saltenv_of env) envs with
      | Some pillar => Some (Ok (pillar, cache))
      | None =>
          fresh_pillar <~ fetch ;;
          Some (Ok (fresh_pillar,
                    dict_set minion (dict_set (saltenv_of env) fresh_pillar envs)
                      cache))
      end
  | None =>
      fresh_pillar <~ fetch ;;
      Some (Ok (fresh_pillar,
                dict_set minion [(saltenv_of env, fresh_pillar)] cache))
  end.

End PillarCache.

(** ** Predicates used by the properties *)

(** The errors of a stage extend the errors it was given. *)
Definition extends (errors errors' : list string) : Prop :=
  exists more, errors' = errors ++ more.

(** Every name of [l] is in [l']. *)
Definition subset (l l' : list string) : Prop :=
  forall x, mem x l = true -> mem x l' = true.

(** [orders] has an entry for every target of [top]. *)
Definition orders_cover (top : top_t) (orders : orders_t) : Prop :=
  forall env targets tgt,
    In (env, targets) top -> In tgt (dict_keys targets) ->
    dict_get2 env tgt orders <> None.

(** The keys of a list of keyed targets, in order. *)
Definition order_keys {A : Type} (l : list (Z * A)) : list Z := map fst l.

(** [self.ignored_pillars.get(saltenv, [])] *)
Definition ignored_for (env : string) (ign : list (string * list string))
  : list string :=
  match dict_get env ign with
  | Some l => l
  | None => []
  end.

(** More sample configurations. *)
Module Sample2.

(** A top file whose target ignores missing states. *)
Definition fragment_ignore : top_file :=
  {| top_include := None;
     top_envs :=
       [("base", [("*", [VDict [("ignore_missing", VBool true)];
                         VStr "ghost"])])] |}.

(** Three targets with orders 2, 1 and 1. *)
Definition fragment_orders : top_file :=
  {| top_include := None;
     top_envs :=
       [("base", [("web*", [VDict [("order", VInt 2)]; VStr "web"]);
                  ("db*", [VDict [("order", VStr "1")]; VStr "db"]);
                  ("*", [VDict [("order", VInt 1)]; VStr "common"])])] |}.

(** [loop] includes itself and renders to [{x: 1}] beside. *)
Definition self_include : value :=
  VDict [("x", VInt 1); ("include", VList [VStr "loop"])].

Definition loop_collab : Collab :=
  Sample.sample_collab Sample.no_tops
    (fun sls => if String.eqb sls "loop" then Some (fun _ _ => Ok self_include)
                else if String.eqb sls "bad" then
                  Some (fun _ _ => Raise (Exn OtherException "mapping values are not allowed here"))
                else None)
    Sample.no_sources (Ok (VDict [])).

(** A decrypt collaborator that fails on [broken] and upper-cases nothing:
    it returns [VStr "plain"] for every other value. *)
Definition decrypt_collab : Collab :=
  {| merge := merge_recurse;
     cache_file := fun _ _ => None;
     get_state := fun _ _ => None;
     compile_top := fun _ _ _ => Ok {| top_include := None; top_envs := [] |};
     compile_template := fun _ _ _ _ _ => Ok (VDict []);
     confirm_top := fun tgt _ => negb (String.eqb tgt "db*");
     fnmatch_filter := fun names pat => filter (String.eqb pat) names;
     ext_pillars := Sample.no_sources;
     gitfs_fetch := fun _ => Ok tt;
     decrypt := fun ptr _ =>
       match ptr with
       | VStr "broken" => Raise (Exn OtherException "decryption failed")
       | _ => Ok (VStr "plain")
       end;
     repack_dictlist := fun _ => VDict [];
     py_str := fun v => type_name v;
     master_opts := fun _ => VDict [];
     crypted_transfer_decode_dictentry := fun _ _ =>
       Raise (Exn OtherException "timeout") |}.

Definition secrets : value :=
  VDict [("db", VDict [("password", VStr "cipher"); ("port", VInt 5432)]);
         ("token", VStr "broken")].

(** A minion of [dev] under the source merging strategy [none]. *)
Definition none_self : Pillar :=
  {| opts :=
       {| opt_pillarenv := None;
          opt_file_roots := Sample.roots ["base"; "dev"];
          opt_pillar_roots := Sample.roots ["base"; "dev"];
          opt_state_top := "salt://top.sls";
          opt_pillar_source_merging_strategy := Some "none";
          opt_pillar := None;
          opt_ext_pillar := None;
          opt_exclude_ext_pillar := [];
          opt_ext_pillar_first := false;
          opt_pillar_opts := false;
          opt_pillar_safe_render_error := true;
          opt_git_pillar := false;
          opt_role := None;
          opt_decrypt_pillar := None;
          opt_decrypt_pillar_delimiter := ":";
          opt_decrypt_pillar_default := VStr "gpg" |};
     minion_id := "web1";
     ext := VNone;
     saltenv := Some "dev";
     avail := [];
     rend := NotRenderers VNone;
     ignored_pillars := [];
     pillar_override := VDict [] |}.

(** The source [s2] is excluded. *)
Definition excluding_self : Pillar :=
  {| opts :=
       {| opt_pillarenv := None;
          opt_file_roots := Sample.roots ["base"];
          opt_pillar_roots := Sample.roots ["base"];
          opt_state_top := "salt://top.sls";
          opt_pillar_source_merging_strategy := None;
          opt_pillar := None;
          opt_ext_pillar :=
            Some (VList [VDict [("s2", VDict []); ("s1", VDict [])];
                         VDict [("s1", VDict [])]]);
          opt_exclude_ext_pillar := ["s2"];
          opt_ext_pillar_first := false;
          opt_pillar_opts := false;
          opt_pillar_safe_render_error := true;
          opt_git_pillar := false;
          opt_role := None;
          opt_decrypt_pillar := None;
          opt_decrypt_pillar_delimiter := ":";
          opt_decrypt_pillar_default := VStr "gpg" |};
     minion_id := "web1";
     ext := VNone;
     saltenv := None;
     avail := [];
     rend := NotRenderers VNone;
     ignored_pillars := [];
     pillar_override := VDict [] |}.

End Sample2.

(** Sample configurations for includes and top files. *)
Module Sample3.





(** A top file whose target carries [order: None]. *)
Definition order_none_collab : Collab :=
  Sample.sample_collab
    (fun _ => Ok {| top_include := None;
                    top_envs := [("base", [("*", [VDict [("order", VNone)];
                                                  VStr "foo"])])] |})
    Sample.no_files Sample.no_sources (Ok (VDict [])).

End Sample3.

(** * Properties *)

(** ** Strings and the merge engine on small inputs *)

Example split_ab : py_split ":" "a:b" = Ok ["a"; "b"].
Proof. reflexivity. Qed.

Example split_wide : py_split "::" "a::b:c::" = Ok ["a"; "b:c"; EmptyString].
Proof. reflexivity. Qed.

Example rpartition_abc : py_rpartition ":" "a:b:c" = Ok ("a:b", "c").
Proof. reflexivity. Qed.

Example rpartition_none : py_rpartition ":" "abc" = Ok (EmptyString, "abc").
Proof. reflexivity. Qed.

Example int_of_str_ex :
  int_of_str " -12 " = Some (-12)%Z /\ int_of_str "x1" = None /\
  int_of_str EmptyString = None.
Proof. repeat split. Qed.

Example merge_recurse_nested :
  merge_recurse
    (VDict [("a", VDict [("x", VInt 1); ("y", VInt 2)]); ("b", VInt 3)])
    (VDict [("a", VDict [("y", VInt 5)]); ("c", VStr "z")])
  = Ok (VDict [("a", VDict [("x", VInt 1); ("y", VInt 5)]); ("b", VInt 3);
               ("c", VStr "z")]).
Proof. reflexivity. Qed.

(** ** Dictionaries *)

Section DictFacts.
Context {V : Type}.
Implicit Types (d : list (string * V)) (k : string) (v : V).

Lemma dict_get_set_same d k v : dict_get k (dict_set k v d) = Some v.
Proof.
  induction d as [|[k' v'] d IH]; simpl.
  - now rewrite String.eqb_refl.
  - destruct (String.eqb k k') eqn:E; simpl; rewrite E; auto.
Qed.

Lemma dict_get_set_other d k k' v :
  k <> k' -> dict_get k (dict_set k' v d) = dict_get k d.
Proof.
  intros Hne. induction d as [|[k0 v0] d IH]; simpl.
  - apply String.eqb_neq in Hne. now rewrite Hne.
  - destruct (String.eqb k' k0) eqn:E; simpl.
    + apply String.eqb_eq in E. subst k0.
      apply String.eqb_neq in Hne. now rewrite Hne.
    + now rewrite IH.
Qed.

Lemma dict_get_app d d' k :
  dict_get k (d ++ d') =
  match dict_get k d with Some v => Some v | None => dict_get k d' end.
Proof.
  induction d as [|[k0 v0] d IH]; simpl; auto.
  destruct (String.eqb k k0); auto.
Qed.

Lemma dict_has_set d k k' v :
  dict_has k (dict_set k' v d) = String.eqb k k' || dict_has k d.
Proof.
  unfold dict_has. destruct (String.eqb k k') eqn:E.
  - apply String.eqb_eq in E. subst. now rewrite dict_get_set_same.
  - apply String.eqb_neq in E. now rewrite dict_get_set_other.
Qed.

Lemma mem_keys_get d k :
  mem k (dict_keys d) = dict_has k d.
Proof.
  unfold dict_has, dict_keys.
  induction d as [|[k0 v0] d IH]; simpl; auto.
  destruct (String.eqb k k0); auto.
Qed.

Lemma dict_keys_set d k v :
  dict_has k d = true -> dict_keys (dict_set k v d) = dict_keys d.
Proof.
  unfold dict_has, dict_keys.
  induction d as [|[k0 v0] d IH]; simpl; [discriminate|].
  destruct (String.eqb k k0) eqn:E; simpl; auto.
  intros H. now rewrite IH.
Qed.
End DictFacts.

Lemma dict_get2_set2_same {V : Type} env tgt (x : V) d :
  dict_get2 env tgt (dict_set2 env tgt x d) = Some x.
Proof.
  unfold dict_get2, dict_set2.
  destruct (dict_get env d) as [inner|] eqn:E.
  - rewrite dict_get_set_same. apply dict_get_set_same.
  - rewrite dict_get_app, E. simpl. rewrite String.eqb_refl. simpl.
    now rewrite String.eqb_refl.
Qed.

Lemma dict_get2_set2_other {V : Type} env tgt env' tgt' (x : V) d :
  String.eqb env env' && String.eqb tgt tgt' = false ->
  dict_get2 env tgt (dict_set2 env' tgt' x d) = dict_get2 env tgt d.
Proof.
  intros Hne. unfold dict_get2, dict_set2.
  destruct (String.eqb env env') eqn:Ee.
  - apply String.eqb_eq in Ee. subst env'. simpl in Hne.
    apply String.eqb_neq in Hne.
    destruct (dict_get env d) as [inner|] eqn:E.
    + rewrite dict_get_set_same. now apply dict_get_set_other.
    + rewrite dict_get_app, E. simpl. rewrite String.eqb_refl. simpl.
      apply String.eqb_neq in Hne. now rewrite Hne.
  - apply String.eqb_neq in Ee.
    destruct (dict_get env' d) as [inner|] eqn:E.
    + now rewrite dict_get_set_other.
    + rewrite dict_get_app. destruct (dict_get env d); auto.
      simpl. apply String.eqb_neq in Ee. now rewrite Ee.
Qed.

(** ** The monads *)

Lemma bind_ok {A B : Type} (r : result A) (k : A -> result B) (b : B) :
  bind r k = Ok b -> exists a, r = Ok a /\ k a = Ok b.
Proof. destruct r as [a|e]; simpl; [eauto | discriminate]. Qed.

Lemma fbind_ok {A B : Type} (r : option (result A))
  (k : A -> option (result B)) (b : B) :
  fbind r k = Some (Ok b) -> exists a, r = Some (Ok a) /\ k a = Some (Ok b).
Proof. destruct r as [[a|e]|]; simpl; [eauto | discriminate | discriminate]. Qed.

(** ** Merging top files *)

Lemma merge_targets_blocks env targets st :
  merge_targets env targets st
  = merge_blocks (map (fun '(tgt, comps) => (env, tgt, comps)) targets) st.
Proof.
  revert st. induction targets as [|[tgt comps] rest IH]; intros st; simpl; auto.
  destruct (merge_target env tgt comps st); simpl; auto.
Qed.

Lemma merge_blocks_app bs bs' st :
  merge_blocks (bs ++ bs') st = (st' <- merge_blocks bs st ;; merge_blocks bs' st').
Proof.
  revert st. induction bs as [|[[env tgt] comps] rest IH]; intros st; simpl; auto.
  destruct (merge_target env tgt comps st); simpl; auto.
Qed.

Lemma merge_ctop_blocks envs st :
  merge_ctop envs st = merge_blocks (ctop_blocks envs) st.
Proof.
  revert st. induction envs as [|[env targets] rest IH]; intros st; simpl; auto.
  unfold ctop_blocks in *. simpl.
  destruct (String.eqb env "include"); simpl; auto.
  rewrite merge_blocks_app, merge_targets_blocks.
  destruct (merge_blocks _ st); simpl; auto.
Qed.

Lemma merge_ctops_blocks ctops st :
  merge_ctops ctops st
  = merge_blocks (flat_map (fun ctop => ctop_blocks (top_envs ctop)) ctops) st.
Proof.
  revert st. induction ctops as [|ctop rest IH]; intros st; simpl; auto.
  rewrite merge_blocks_app, merge_ctop_blocks.
  destruct (merge_blocks _ st); simpl; auto.
Qed.

(** The four nested loops visit the blocks of [top_blocks] in order. *)
Lemma merge_tops_loop_blocks tops st :
  merge_tops_loop tops st = merge_blocks (top_blocks tops) st.
Proof.
  revert st. induction tops as [|[env ctops] rest IH]; intros st; simpl; auto.
  unfold top_blocks in *. simpl.
  rewrite merge_blocks_app, merge_ctops_blocks.
  destruct (merge_blocks _ st); simpl; auto.
Qed.

(** A block for another target leaves the entry and the order of
    [(env, tgt)] alone. *)
Lemma merge_blocks_frame env tgt post :
  forallb (fun b => negb (same_target env tgt b)) post = true ->
  forall top orders ign top' orders' ign',
    merge_blocks post (top, orders, ign) = Ok (top', orders', ign') ->
    dict_get2 env tgt top' = dict_get2 env tgt top /\
    dict_get2 env tgt orders' = dict_get2 env tgt orders.
Proof.
  induction post as [|[[env' tgt'] comps] rest IH]; simpl; intros Hpost.
  - intros * H. inversion H. auto.
  - apply andb_prop in Hpost as [Hne Hrest].
    apply negb_true_iff in Hne.
    intros * H. apply bind_ok in H as ([[top1 orders1] ign1] & Hstep & Hmore).
    unfold merge_target in Hstep.
    apply bind_ok in Hstep as (s & _ & Hstep). inversion Hstep. subst.
    destruct (IH Hrest _ _ _ _ _ _ Hmore) as [Ht Ho].
    rewrite Ht, Ho. split; now apply dict_get2_set2_other.
Qed.

(** What the last block of a target leaves in [top] and [orders]. *)
Lemma merge_blocks_last pre env tgt comps post st top orders ign :
  forallb (fun b => negb (same_target env tgt b)) post = true ->
  merge_blocks (pre ++ (env, tgt, comps) :: post) st = Ok (top, orders, ign) ->
  exists s,
    scan_comps scan0 comps = Ok s /\
    dict_get2 env tgt top = Some (sc_matches s ++ map VStr (sc_states s)) /\
    dict_get2 env tgt orders = Some (sc_order s).
Proof.
  intros Hpost H. rewrite merge_blocks_app in H.
  apply bind_ok in H as ([[top0 orders0] ign0] & _ & H). simpl in H.
  apply bind_ok in H as ([[top1 orders1] ign1] & Hstep & Hmore).
  unfold merge_target in Hstep.
  apply bind_ok in Hstep as (s & Hs & Hstep). inversion Hstep. subst.
  exists s. split; auto.
  destruct (merge_blocks_frame env tgt post Hpost _ _ _ _ _ _ Hmore) as [Ht Ho].
  rewrite Ht, Ho. split; apply dict_get2_set2_same.
Qed.

(** Comps without an [order] key leave the order where the scan began. *)
Lemma scan_comps_no_order comps :
  has_order comps = false ->
  forall s s', scan_comps s comps = Ok s' -> sc_order s' = sc_order s.
Proof.
  induction comps as [|comp rest IH]; simpl; intros Hno s s' H.
  - now inversion H.
  - apply orb_false_elim in Hno as [Hc Hrest].
    apply bind_ok in H as (s1 & Hstep & Hmore).
    rewrite (IH Hrest _ _ Hmore).
    destruct comp; simpl in Hstep; try (inversion Hstep; reflexivity).
    unfold dict_has in Hc. destruct (dict_get "order" d); [discriminate|].
    simpl in Hstep. inversion Hstep. reflexivity.
Qed.

Lemma scan_comps_app cpre cpost s :
  scan_comps s (cpre ++ cpost) = (s' <- scan_comps s cpre ;; scan_comps s' cpost).
Proof.
  revert s. induction cpre as [|comp rest IH]; intros s; simpl; auto.
  destruct (scan_comp s comp); simpl; auto.
Qed.

(** ** Sorting keeps the entries *)

Lemma dict_get_in {V : Type} (d : list (string * V)) k v :
  dict_get k d = Some v -> In (k, v) d.
Proof.
  induction d as [|[k0 v0] d IH]; simpl; [discriminate|].
  destruct (String.eqb k k0) eqn:E.
  - apply String.eqb_eq in E. intros H. inversion H. subst. now left.
  - intros H. right. auto.
Qed.

Lemma dict_get_none {V : Type} (d : list (string * V)) k :
  dict_get k d = None -> ~ In k (dict_keys d).
Proof.
  unfold dict_keys. induction d as [|[k0 v0] d IH]; simpl; auto.
  destruct (String.eqb k k0) eqn:E; [discriminate|].
  apply String.eqb_neq in E. intros H [H1|H1]; [congruence | now apply IH].
Qed.

Lemma in_dict_get {V : Type} (d : list (string * V)) k v :
  NoDup (dict_keys d) -> In (k, v) d -> dict_get k d = Some v.
Proof.
  unfold dict_keys. induction d as [|[k0 v0] d IH]; simpl; [tauto|].
  intros Hnd [H|H]; inversion Hnd as [|? ? Hnotin Hnd']; subst.
  - inversion H. subst. now rewrite String.eqb_refl.
  - destruct (String.eqb k k0) eqn:E; auto.
    apply String.eqb_eq in E. subst k0. exfalso. apply Hnotin.
    change k with (fst (k, v)). now apply in_map.
Qed.

Lemma dict_get_perm {V : Type} (d d' : list (string * V)) k :
  NoDup (dict_keys d) -> Permutation d d' -> dict_get k d' = dict_get k d.
Proof.
  intros Hnd Hp.
  assert (Hnd' : NoDup (dict_keys d')).
  { unfold dict_keys in *. eapply Permutation_NoDup; [|exact Hnd].
    now apply Permutation_map. }
  destruct (dict_get k d) as [v|] eqn:E.
  - apply in_dict_get; auto. eapply Permutation_in; [exact Hp|].
    now apply dict_get_in.
  - destruct (dict_get k d') as [v'|] eqn:E'; auto.
    exfalso. apply (dict_get_none _ _ E).
    apply dict_get_in in E'. unfold dict_keys.
    change k with (fst (k, v')). apply in_map.
    eapply Permutation_in; [apply Permutation_sym; exact Hp | exact E'].
Qed.

Lemma insert_by_perm {A : Type} (x : Z * A) l :
  Permutation (insert_by x l) (x :: l).
Proof.
  induction l as [|y l IH]; simpl; auto.
  destruct (Z.leb (fst x) (fst y)); auto.
  rewrite IH. apply perm_swap.
Qed.

Lemma sorted_by_perm {A : Type} (l : list (Z * A)) :
  Permutation (sorted_by l) l.
Proof.
  induction l as [|x l IH]; simpl; auto.
  rewrite insert_by_perm. now constructor.
Qed.

Lemma keyed_snd orders env targets ks :
  keyed orders env targets = Ok ks -> map snd ks = targets.
Proof.
  revert ks. induction targets as [|[tgt v] rest IH]; simpl; intros ks H.
  - now inversion H.
  - apply bind_ok in H as (k & _ & H). apply bind_ok in H as (ks' & Hks & H).
    inversion H. simpl. now rewrite (IH _ Hks).
Qed.

Lemma dict_keys_set_in {V : Type} (d : list (string * V)) k v x :
  In x (dict_keys (dict_set k v d)) -> x = k \/ In x (dict_keys d).
Proof.
  unfold dict_keys. induction d as [|[k0 v0] d IH]; simpl.
  - intros [H|[]]. now left.
  - destruct (String.eqb k k0); simpl; [tauto|].
    intros [H|H]; [tauto|]. destruct (IH H); tauto.
Qed.

Lemma dict_set_nodup {V : Type} (d : list (string * V)) k v :
  NoDup (dict_keys d) -> NoDup (dict_keys (dict_set k v d)).
Proof.
  induction d as [|[k0 v0] d IH]; simpl; intros Hnd.
  - repeat constructor. simpl. tauto.
  - destruct (String.eqb k k0) eqn:E; simpl; auto.
    inversion Hnd as [|? ? Hnotin Hnd']; subst.
    constructor; [|now apply IH].
    intros Hin. apply dict_keys_set_in in Hin as [Hin|Hin]; [|tauto].
    subst. now rewrite String.eqb_refl in E.
Qed.

Lemma dict_set_forall {V : Type} (P : string * V -> Prop) d k v :
  (forall k', P (k', v)) -> Forall P d -> Forall P (dict_set k v d).
Proof.
  intros Hv. induction d as [|[k0 v0] d IH]; simpl; intros Hd.
  - constructor; auto.
  - inversion Hd; subst. destruct (String.eqb k k0); constructor; auto.
Qed.

Lemma dict_set2_distinct {V : Type} env tgt (x : V) top :
  targets_distinct top -> targets_distinct (dict_set2 env tgt x top).
Proof.
  unfold targets_distinct, dict_set2. intros Hd.
  destruct (dict_get env top) as [inner|] eqn:E.
  - apply dict_set_forall; auto. intros k'. simpl.
    apply dict_set_nodup.
    apply dict_get_in in E.
    now apply (proj1 (Forall_forall _ _) Hd (env, inner)).
  - apply Forall_app. split; auto.
    repeat constructor. simpl. tauto.
Qed.

Lemma merge_blocks_distinct blocks :
  forall top orders ign top' orders' ign',
    targets_distinct top ->
    merge_blocks blocks (top, orders, ign) = Ok (top', orders', ign') ->
    targets_distinct top'.
Proof.
  induction blocks as [|[[env tgt] comps] rest IH]; simpl; intros * Hd H.
  - now inversion H; subst.
  - apply bind_ok in H as ([[top1 orders1] ign1] & Hstep & Hmore).
    unfold merge_target in Hstep.
    apply bind_ok in Hstep as (s & _ & Hstep). inversion Hstep. subst.
    eapply IH; [|exact Hmore]. now apply dict_set2_distinct.
Qed.

(** [sort_top_targets] reorders the targets of an environment and keeps
    what each target maps to. *)
Lemma sort_top_targets_get top orders sorted env tgt :
  targets_distinct top ->
  sort_top_targets top orders = Ok sorted ->
  dict_get2 env tgt sorted = dict_get2 env tgt top.
Proof.
  revert sorted. induction top as [|[env0 targets] rest IH]; simpl; intros sorted Hd H.
  - now inversion H.
  - apply bind_ok in H as (ks & Hks & H).
    apply bind_ok in H as (rest' & Hrest & H). inversion H. subst sorted.
    inversion Hd as [|? ? Hnd Hd']; subst. simpl in Hnd.
    unfold dict_get2 in *. simpl.
    destruct (String.eqb env env0) eqn:E.
    + apply dict_get_perm; auto.
      rewrite <- (keyed_snd _ _ _ _ Hks) at 1.
      apply Permutation_map, Permutation_sym, sorted_by_perm.
    + now apply IH.
Qed.

(** C10: in [merge_tops] the order of an (environment, target) pair is
    set back to 0 whenever a fragment mentions the target, before the
    entries of that fragment are scanned.  Whatever the loops held before
    ([st]), the order that [sort_top_targets] reads for the pair is the one
    that the scan of the last block mentioning it produces from 0: 0 when
    that block has no [order] entry, the coerced value of its last [order]
    entry otherwise. *)
Theorem C10_order_comes_from_last_fragment :
  forall tops pre env tgt comps post st top orders ign,
    top_blocks tops = pre ++ (env, tgt, comps) :: post ->
    forallb (fun b => negb (same_target env tgt b)) post = true ->
    merge_tops_loop tops st = Ok (top, orders, ign) ->
    exists s,
      scan_comps scan0 comps = Ok s /\
      order_key orders env tgt = Ok (sc_order s) /\
      (has_order comps = false -> sc_order s = 0%Z) /\
      (forall cpre d v cpost z,
          comps = cpre ++ VDict d :: cpost ->
          dict_get "order" d = Some v -> order_of v = Ok z ->
          has_order cpost = false -> sc_order s = z).
Proof.
  intros * Hblocks Hpost Hloop.
  rewrite merge_tops_loop_blocks, Hblocks in Hloop.
  destruct (merge_blocks_last _ _ _ _ _ _ _ _ _ Hpost Hloop) as (s & Hs & _ & Ho).
  exists s. split; [exact Hs|]. split; [|split].
  - unfold order_key. now rewrite Ho.
  - intros Hno. apply (scan_comps_no_order _ Hno _ _ Hs).
  - intros * Hcomps Hd Hv Hno. subst comps.
    rewrite scan_comps_app in Hs.
    apply bind_ok in Hs as (s1 & _ & Hs). simpl in Hs.
    apply bind_ok in Hs as (s2 & Hstep & Hmore).
    rewrite (scan_comps_no_order _ Hno _ _ Hmore).
    rewrite Hd, Hv in Hstep. simpl in Hstep. now inversion Hstep.
Qed.

Lemma C10_order_comes_from_last_fragment_witness :
  exists s,
    scan_comps scan0 [VStr "b"] = Ok s /\
    order_key [("base", [("*", 0%Z)])] "base" "*" = Ok (sc_order s) /\
    (has_order [VStr "b"] = false -> sc_order s = 0%Z) /\
    (forall cpre d v cpost z,
        [VStr "b"] = cpre ++ VDict d :: cpost ->
        dict_get "order" d = Some v -> order_of v = Ok z ->
        has_order cpost = false -> sc_order s = z).
Proof.
  apply (C10_order_comes_from_last_fragment Sample.two_fragments
           [("base", "*", [VDict [("order", VInt 5)];
                           VDict [("match", VStr "glob")]; VStr "a"])]
           "base" "*" [VStr "b"] [] ([], [], [])
           [("base", [("*", [VStr "b"])])] [("base", [("*", 0%Z)])] []);
    reflexivity.
Defined.

(** C2, as stated, fails: two fragments of [base] name the target [*];
    the merged entry holds the state of the second fragment only, neither
    the [match] entry nor the state name of the first. *)
Lemma C2_counterexample :
  exists self' merged,
    merge_tops Sample.plain_self Sample.two_fragments = Ok (self', merged) /\
    dict_get2 "base" "*" merged = Some [VStr "b"] /\
    ~ In (VStr "a") [VStr "b"] /\
    ~ In (VDict [("match", VStr "glob")]) [VStr "b"].
Proof.
  eexists. eexists. split; [reflexivity|]. split; [reflexivity|].
  split; intros [H|[]]; discriminate.
Qed.

(** C2, amended: in [merge_tops] the entry of an (environment, target)
    pair that several fragments mention is the one built from the last
    fragment that mentions it, its [match] entries followed by its state
    names without repetition; what earlier fragments contributed to the
    pair is replaced. *)
Theorem C2_last_fragment_replaces :
  forall self tops pre env tgt comps post self' merged,
    top_blocks tops = pre ++ (env, tgt, comps) :: post ->
    forallb (fun b => negb (same_target env tgt b)) post = true ->
    merge_tops self tops = Ok (self', merged) ->
    exists s,
      scan_comps scan0 comps = Ok s /\
      dict_get2 env tgt merged
      = Some (sc_matches s ++ map VStr (sc_states s)).
Proof.
  intros * Hblocks Hpost Hmerge. unfold merge_tops in Hmerge.
  apply bind_ok in Hmerge as ([[top orders] ign] & Hloop & Hmerge).
  apply bind_ok in Hmerge as (sorted & Hsort & Hmerge).
  inversion Hmerge. subst.
  rewrite merge_tops_loop_blocks in Hloop.
  assert (Hd : targets_distinct top).
  { eapply merge_blocks_distinct; [|exact Hloop]. constructor. }
  rewrite Hblocks in Hloop.
  destruct (merge_blocks_last _ _ _ _ _ _ _ _ _ Hpost Hloop) as (s & Hs & Ht & _).
  exists s. split; [exact Hs|].
  now rewrite (sort_top_targets_get _ _ _ env tgt Hd Hsort).
Qed.

Lemma C2_last_fragment_replaces_witness :
  exists s,
    scan_comps scan0 [VStr "b"] = Ok s /\
    dict_get2 "base" "*" [("base", [("*", [VStr "b"])])]
    = Some (sc_matches s ++ map VStr (sc_states s)).
Proof.
  apply (C2_last_fragment_replaces Sample.plain_self Sample.two_fragments
           [("base", "*", [VDict [("order", VInt 5)];
                           VDict [("match", VStr "glob")]; VStr "a"])]
           "base" "*" [VStr "b"] [] Sample.plain_self
           [("base", [("*", [VStr "b"])])]);
    reflexivity.
Defined.

(** ** Top-file resolution *)

(** The first render that raises ends the scan: the environments after it
    are not looked at. *)
Lemma gather_tops_stops c self env rest tops top e :
  skip_env self env = false ->
  cache_file c (opt_state_top (opts self)) env = Some top ->
  compile_top c (Some top) (rend self) env = Raise e ->
  gather_tops c self (env :: rest) tops = (dict_touch env tops, Some e).
Proof. intros Hskip Hfile Hrender. simpl. now rewrite Hskip, Hfile, Hrender. Qed.

(** C3: [get_tops] on two environments, [base] and [dev], where the top
    file of [base] fails to render.  One error is recorded and nothing is
    raised, but the scan ends there: the top file of [dev], which is
    cached and renders to a fragment on its own, is not in the result. *)
Theorem C3_failure_hides_later_environments :
  _get_envs Sample.two_env_self = ["base"; "dev"] /\
  compile_top Sample.base_fails_collab
    (cache_file Sample.base_fails_collab "salt://top.sls" "dev")
    (rend Sample.two_env_self) "dev" = Ok Sample.fragment_b /\
  get_tops Sample.base_fails_collab Sample.two_env_self
  = ([("base", [])],
     [primary_error (Exn OtherException "found character that cannot start any token")]) /\
  dict_get "dev" (fst (get_tops Sample.base_fails_collab Sample.two_env_self)) = None.
Proof. repeat split. Qed.

(** ** Includes of a pillar SLS file *)

(** C4: [foo] includes [{bar: {defaults: {name: v}, key: a}}] and the
    render of [bar] reports what it received.  The declared defaults
    arrive as [renderers]; the defaults of the nested render are empty. *)
Theorem C4_defaults_arrive_as_renderers :
  render_pstate 2 Sample.echo_collab Sample.plain_self "foo" "base" []
    (Some (Loaded (opts Sample.plain_self))) VNone
  = Some (Ok (VDict [("a", VDict [("renderers", VDict [("name", VStr "v")]);
                                  ("defaults", VDict [])])],
              ["foo"; "bar"], [])).
Proof. reflexivity. Qed.

(** ** The remote clients *)

(** C6: the master answers with a list.  The suspending client raises a
    client error; the blocking client returns an empty tree. *)
Theorem C6_blocking_client_returns_empty_tree :
  crypted_transfer_decode_dictentry Sample.bad_reply_collab
    (remote_load Sample.remote) "pillar" = Ok (VList [VStr "oops"]) /\
  RemotePillar.compile_pillar Sample.bad_reply_collab Sample.remote
  = Ok (VDict []) /\
  AsyncRemotePillar.compile_pillar Sample.bad_reply_collab Sample.remote
  = Raise (Exn SaltClientError
             (bad_pillar_msg Sample.bad_reply_collab (VList [VStr "oops"]))).
Proof. repeat split. Qed.

(** ** External pillar aggregation *)

Lemma ext_pillar_runs_malformed c self dirs pre bad post :
  forallb is_dict pre = true -> is_dict bad = false ->
  forall p e x p' e',
    ext_pillar_runs c self dirs pre p e x = Ok (p', e') ->
    ext_pillar_runs c self dirs (pre ++ bad :: post) p e x
    = Ok (VDict [], e' ++ [malformed_msg]).
Proof.
  intros Hpre Hbad. induction pre as [|run rest IH]; simpl; intros p e x p' e' H.
  - inversion H. subst. destruct bad; try reflexivity. discriminate.
  - simpl in Hpre. apply andb_prop in Hpre as [Hrun Hrest].
    destruct run as [| | | | |d]; try discriminate.
    destruct d as [|[key0 val0] items]; [discriminate|].
    destruct (mem key0 (opt_exclude_ext_pillar (opts self))); [eapply IH; eassumption|].
    destruct (fold_left _ _ _) as [errors' ext'].
    destruct (truthy ext'); [|eapply IH; eassumption].
    destruct (merge c p ext') as [p1|exc]; simpl in *; [eapply IH; eassumption | discriminate].
Qed.

Lemma ext_pillar_runs_chain c self dirs runs :
  forallb is_dict runs = true ->
  forall p e x p' e',
    ext_pillar_runs c self dirs runs p e x = Ok (p', e') ->
    exists contributions, merge_chain c p contributions = Ok p'.
Proof.
  induction runs as [|run rest IH]; simpl; intros Hruns p e x p' e' H.
  - inversion H. subst. now exists [].
  - apply andb_prop in Hruns as [Hrun Hrest].
    destruct run as [| | | | |d]; try discriminate.
    destruct d as [|[key0 val0] items]; [discriminate|].
    destruct (mem key0 (opt_exclude_ext_pillar (opts self))); [eapply IH; eassumption|].
    destruct (fold_left _ _ _) as [errors' ext'].
    destruct (truthy ext'); [|eapply IH; eassumption].
    destruct (merge c p ext') as [p1|exc] eqn:Hm; simpl in *; [|discriminate].
    destruct (IH Hrest _ _ _ _ _ H) as (cs & Hcs).
    exists (ext' :: cs). simpl. now rewrite Hm.
Qed.

(** C5, as stated, fails: an [ext_pillar] option that is not a sequence
    gives back the pillar it was handed, here [k = 1], not an empty tree. *)
Lemma C5_counterexample :
  is_list (VStr "cmd_yaml") = false /\
  ext_pillar Sample.sources_collab (Sample.sources_self (VStr "cmd_yaml"))
    (Sample.k_is 1) VNone []
  = Ok (Sample.k_is 1, [malformed_msg]) /\
  Sample.k_is 1 <> VDict [].
Proof. repeat split. discriminate. Qed.

(** C5, amended: an [ext_pillar] option that is not a sequence makes
    [ext_pillar] return the pillar it was given, unchanged, with one
    diagnostic appended; an entry of the sequence that is not a mapping
    makes it return an empty tree with one diagnostic appended to the
    errors gathered so far; in every other case that returns, the returned
    tree is the given pillar with the override and the source results
    merged into it, so only the entry that is not a mapping discards
    state. *)
Theorem C5_malformed_ext_pillar :
  forall c self pillar dirs errors,
    git_prefetch c self = Ok tt ->
    (forall cfg,
        opt_ext_pillar (opts self) = Some cfg -> is_list cfg = false ->
        ext_pillar c self pillar dirs errors
        = Ok (pillar, errors ++ [malformed_msg])) /\
    (forall pre bad post p0 p' e',
        opt_ext_pillar (opts self) = Some (VList (pre ++ bad :: post)) ->
        forallb is_dict pre = true -> is_dict bad = false ->
        (if truthy (pillar_override self)
         then merge c pillar (pillar_override self) else Ok pillar) = Ok p0 ->
        ext_pillar_runs c self dirs pre p0 errors VNone = Ok (p', e') ->
        ext_pillar c self pillar dirs errors
        = Ok (VDict [], e' ++ [malformed_msg])) /\
    (forall p' e',
        (opt_ext_pillar (opts self) = None \/
         exists runs, opt_ext_pillar (opts self) = Some (VList runs) /\
                      forallb is_dict runs = true) ->
        ext_pillar c self pillar dirs errors = Ok (p', e') ->
        exists contributions, merge_chain c pillar contributions = Ok p').
Proof.
  intros * Hgit. unfold ext_pillar. rewrite Hgit. simpl.
  split; [|split].
  - intros cfg Hcfg Hlist. rewrite Hcfg.
    destruct cfg; try reflexivity. discriminate.
  - intros * Hcfg Hpre Hbad Hover Hruns. rewrite Hcfg, Hover. simpl.
    now apply ext_pillar_runs_malformed with (p' := p').
  - intros p' e' [Hcfg|(runs & Hcfg & Hruns)] H; rewrite Hcfg in H.
    + inversion H. subst. now exists [].
    + apply bind_ok in H as (p0 & Hover & H).
      destruct (ext_pillar_runs_chain _ _ _ _ Hruns _ _ _ _ _ H) as (cs & Hcs).
      destruct (truthy (pillar_override self)).
      * exists (pillar_override self :: cs). simpl. now rewrite Hover.
      * inversion Hover. subst. now exists cs.
Qed.

Lemma C5_malformed_ext_pillar_witness :
  ext_pillar Sample.sources_collab
    (Sample.sources_self (VList [VDict [("s1", VDict [])]; VStr "cmd_yaml"]))
    (VDict [("own", VInt 7)]) VNone []
  = Ok (VDict [], [] ++ [malformed_msg]).
Proof.
  apply (proj1 (proj2
           (C5_malformed_ext_pillar Sample.sources_collab
              (Sample.sources_self (VList [VDict [("s1", VDict [])]; VStr "cmd_yaml"]))
              (VDict [("own", VInt 7)]) VNone [] eq_refl))
           [VDict [("s1", VDict [])]] (VStr "cmd_yaml") []
           (VDict [("own", VInt 7)])
           (VDict [("own", VInt 7); ("k", VInt 1)]));
    reflexivity.
Defined.

(** An entry with one key: the loop of the source, with its variable
    [ext] carried from one entry to the next, takes the step that the
    specification words. *)
Lemma ext_pillar_runs_spec c self dirs entries :
  forall p e x,
    truthy x = false ->
    ext_pillar_runs c self dirs (map single_key entries) p e x
    = spec_aggregate c self dirs entries (p, e).
Proof.
  induction entries as [|[key val] rest IH]; intros p e x Hx; simpl; auto.
  destruct (mem key (opt_exclude_ext_pillar (opts self))); simpl; [now apply IH|].
  unfold _external_pillar_data.
  destruct (ext_pillars c key) as [source|]; simpl.
  - destruct (source (external_pillar_call self p val dirs key)) as [contribution|exc];
      simpl.
    + destruct (truthy contribution) eqn:Ht.
      * destruct (merge c p contribution); simpl; auto.
      * now apply IH.
    + rewrite Hx. now apply IH.
  - rewrite Hx. now apply IH.
Qed.

(** C8, as stated, fails: after [s1] contributed [k = 1], the source
    [git], configured with a list, is called with the minion id, its
    configured arguments and [pillar_dirs]; the running pillar is not
    among the arguments of the call. *)
Lemma C8_counterexample :
  ext_pillar Sample.sources_collab
    (Sample.sources_self
       (VList [VDict [("s1", VDict [])]; VDict [("git", Sample.git_remotes)]]))
    (VDict []) VNone []
  = Ok (VDict [("k", VInt 1);
               ("seen", VList [VStr "web1"; Sample.git_remotes; VNone])], []) /\
  call_args
    (external_pillar_call (Sample.sources_self (VList [])) (Sample.k_is 1)
       Sample.git_remotes VNone "git")
  = [VStr "web1"; Sample.git_remotes; VNone] /\
  ~ In (Sample.k_is 1) [VStr "web1"; Sample.git_remotes; VNone].
Proof.
  split; [reflexivity|]. split; [reflexivity|].
  intros [H|[H|[H|[]]]]; discriminate.
Qed.

(** C8, amended: for a configuration that is a sequence of single-key
    entries, [ext_pillar] handles the entries in configuration order, one
    at a time: an excluded or unregistered name is skipped; an exception
    of a source appends exactly one error and the remaining entries are
    still handled; a truthy result is merged into the running pillar at
    once.  Every source other than [git] with arguments that are not a
    mapping is called with the running pillar as its second argument. *)
Theorem C8_sources_in_order_and_isolated :
  forall c self pillar dirs errors entries p0,
    git_prefetch c self = Ok tt ->
    opt_ext_pillar (opts self) = Some (VList (map single_key entries)) ->
    (if truthy (pillar_override self)
     then merge c pillar (pillar_override self) else Ok pillar) = Ok p0 ->
    ext_pillar c self pillar dirs errors
    = spec_aggregate c self dirs entries (p0, errors) /\
    (forall key val running,
        String.eqb key "git" && negb (is_dict val) = false ->
        nth_error (call_args (external_pillar_call self running val dirs key)) 1
        = Some running).
Proof.
  intros * Hgit Hcfg Hover. split.
  - unfold ext_pillar. rewrite Hgit, Hcfg, Hover. simpl.
    now apply ext_pillar_runs_spec.
  - intros key val running Hkey. unfold external_pillar_call.
    destruct val; simpl in *; try reflexivity;
      rewrite andb_true_r in Hkey; now rewrite Hkey.
Qed.

Lemma C8_sources_in_order_and_isolated_witness :
  ext_pillar Sample.sources_collab
    (Sample.sources_self
       (VList (map single_key [("s2", VDict []); ("s1", VDict [])])))
    (VDict []) VNone []
  = Ok (Sample.k_is 1, ["Failed to load ext_pillar s2: connection refused"]) /\
  (forall key val running,
      String.eqb key "git" && negb (is_dict val) = false ->
      nth_error
        (call_args
           (external_pillar_call
              (Sample.sources_self
                 (VList (map single_key [("s2", VDict []); ("s1", VDict [])])))
              running val VNone key)) 1
      = Some running).
Proof.
  apply (C8_sources_in_order_and_isolated Sample.sources_collab
           (Sample.sources_self
              (VList (map single_key [("s2", VDict []); ("s1", VDict [])])))
           (VDict []) VNone [] [("s2", VDict []); ("s1", VDict [])]
           (VDict []) eq_refl eq_refl eq_refl).
Defined.

(** ** The decryption pass *)

Lemma decrypt_entries_app c self before after st :
  decrypt_entries c self (before ++ after) st
  = (st' <- decrypt_entries c self before st ;; decrypt_entries c self after st').
Proof.
  revert st. induction before as [|entry rest IH]; intros st; simpl; auto.
  destruct (decrypt_entry c self st entry); simpl; auto.
Qed.

(** A path that does not resolve: the body of the loop changes nothing. *)
Lemma decrypt_entry_unresolved c self pillar errors key rend_ parts :
  py_split (opt_decrypt_pillar_delimiter (opts self)) key = Ok parts ->
  traverse_parts pillar parts = None ->
  decrypt_entry c self (pillar, errors) (key, rend_) = Ok (pillar, errors).
Proof.
  intros Hsplit Hnone. unfold decrypt_entry, traverse_dict.
  rewrite Hsplit. simpl. now rewrite Hnone.
Qed.

(** C9: a configured decrypt path that does not resolve in the pillar, as
    the pass finds it when it reaches the path, adds no diagnostic and
    leaves the tree as it is: the body of the loop returns the tree and the
    errors it was given, and [decrypt_pillar] gives what the pass over the
    other paths gives. *)
Theorem C9_unresolved_path_is_skipped :
  forall c self key rend_ parts before after pillar pillar1 errors1,
    opt_decrypt_pillar (opts self)
    = Some (VDict (before ++ (key, rend_) :: after)) ->
    py_split (opt_decrypt_pillar_delimiter (opts self)) key = Ok parts ->
    decrypt_entries c self before (pillar, []) = Ok (pillar1, errors1) ->
    traverse_parts pillar1 parts = None ->
    decrypt_entry c self (pillar1, errors1) (key, rend_) = Ok (pillar1, errors1) /\
    decrypt_pillar c self pillar
    = decrypt_entries c self (before ++ after) (pillar, []).
Proof.
  intros * Hcfg Hsplit Hbefore Hnone.
  assert (Hstep := decrypt_entry_unresolved c self _ errors1 _ rend_ _ Hsplit Hnone).
  split; [exact Hstep|].
  unfold decrypt_pillar. rewrite Hcfg.
  replace (truthy (VDict (before ++ (key, rend_) :: after))) with true
    by (destruct before; reflexivity).
  cbn [is_dict as_items].
  replace (match before ++ (key, rend_) :: after with
           | [] => ["decrypt_pillar config option is malformed"]
           | _ :: _ => []
           end) with (@nil string) by (destruct before; reflexivity).
  rewrite !decrypt_entries_app, Hbefore. cbn [bind decrypt_entries].
  now rewrite Hstep.
Qed.

Lemma C9_unresolved_path_is_skipped_witness :
  decrypt_entry Sample.key_collab Sample.decrypt_self (Sample.k_is 1, [])
    ("secrets:vault", VStr "gpg") = Ok (Sample.k_is 1, []) /\
  decrypt_pillar Sample.key_collab Sample.decrypt_self (Sample.k_is 1)
  = Ok (Sample.k_is 1, []).
Proof.
  apply (C9_unresolved_path_is_skipped Sample.key_collab Sample.decrypt_self
           "secrets:vault" (VStr "gpg") ["secrets"; "vault"] [] []
           (Sample.k_is 1) (Sample.k_is 1) []
           eq_refl eq_refl eq_refl eq_refl).
Defined.

(** ** The recursive merge satisfies the law of the merge engine *)

Lemma mem_false_not_in x l : mem x l = false -> ~ In x l.
Proof.
  induction l as [|y l IH]; simpl; auto.
  destruct (String.eqb x y) eqn:E; [discriminate|].
  apply String.eqb_neq in E. intros H [Hin|Hin]; [congruence | now apply IH].
Qed.

Lemma nodupb_NoDup l : nodupb l = true -> NoDup l.
Proof.
  induction l as [|x l IH]; simpl; intros H; constructor;
    apply andb_prop in H as [Hx Hl]; auto.
  apply negb_true_iff in Hx. now apply mem_false_not_in.
Qed.

Lemma wf_value_get d k v :
  wf_value (VDict d) = true -> dict_get k d = Some v -> wf_value v = true.
Proof.
  simpl. intros H Hget. apply andb_prop in H as [_ H].
  apply dict_get_in in Hget.
  apply (proj1 (forallb_forall _ _) H (k, v) Hget).
Qed.

Lemma update_items_get_other f u :
  forall d k, ~ In k (dict_keys u) ->
              dict_get k (update_items f d u) = dict_get k d.
Proof.
  unfold dict_keys. induction u as [|[k0 v0] u IH]; simpl; intros d k Hnotin; auto.
  rewrite IH by tauto. apply dict_get_set_other. intros ->. tauto.
Qed.

Lemma update_items_get f u :
  forall d k val,
    NoDup (dict_keys u) -> dict_get k u = Some val ->
    dict_get k (update_items f d u)
    = Some match dict_get k d with
           | Some dest_subkey => f dest_subkey val
           | None => val
           end.
Proof.
  unfold dict_keys. induction u as [|[k0 v0] u IH]; simpl; intros d k val Hnd Hget.
  - discriminate.
  - inversion Hnd as [|? ? Hnotin Hnd']; subst.
    destruct (String.eqb k k0) eqn:E.
    + apply String.eqb_eq in E. subst k0. inversion Hget. subst v0.
      rewrite update_items_get_other by exact Hnotin.
      apply dict_get_set_same.
    + rewrite (IH _ _ _ Hnd' Hget).
      apply String.eqb_neq in E. now rewrite dict_get_set_other.
Qed.

Lemma update_value_scalar a v : hashable v = true -> update_value a v = v.
Proof. destruct v; simpl; try discriminate; destruct a; reflexivity. Qed.

Lemma update_value_path path :
  forall a b v,
    wf_value b = true -> traverse_parts b path = Some v -> hashable v = true ->
    traverse_parts (update_value a b) path = Some v.
Proof.
  induction path as [|k path IH]; simpl; intros a b v Hwf Hpath Hv.
  - inversion Hpath. subst. now rewrite update_value_scalar.
  - destruct b as [| | | | |u]; try discriminate.
    destruct (dict_get k u) as [bk|] eqn:Hk; [|discriminate].
    assert (Hwfk := wf_value_get _ _ _ Hwf Hk).
    destruct a as [| | | | |d]; simpl; try (now rewrite Hk).
    assert (Hnd : NoDup (dict_keys u)).
    { simpl in Hwf. apply andb_prop in Hwf as [Hwf _]. now apply nodupb_NoDup. }
    rewrite (update_items_get _ _ _ _ _ Hnd Hk).
    destruct (dict_get k d); auto.
Qed.

Lemma merge_recurse_later_wins : later_wins merge_recurse.
Proof.
  intros a b r path v Hm Hwf Hpath Hv. unfold merge_recurse in Hm.
  destruct (is_dict a && is_dict b); [|discriminate].
  inversion Hm. now apply update_value_path.
Qed.

(** ** The order of the sources in [compile_pillar] *)

(** C1, as stated, fails: with [ext_pillar_first], the source [s1]
    gives the base tree [k = 1], the state file [foo] sets [k = 3], and the
    tree that leaves the source stage has [k = 3]: the rendered value wins
    over the value of the base tree. *)
Lemma C1_counterexample :
  opt_ext_pillar_first (opts Sample.ext_first_self) = true /\
  ext_pillar Sample.ext_first_collab Sample.ext_first_self
    (pillar_override Sample.ext_first_self) VNone []
  = Ok (Sample.k_is 1, []) /\
  (exists self1,
      render_pillar 2 Sample.ext_first_collab self1 [("base", ["foo"])] []
      = Some (Ok (Sample.k_is 3, [])) /\
      compile_sources 2 Sample.ext_first_collab Sample.ext_first_self true VNone
      = Some (Ok (self1, Sample.k_is 3, [], []))) /\
  traverse_parts (Sample.k_is 1) ["k"] = Some (VInt 1) /\
  traverse_parts (Sample.k_is 3) ["k"] <> traverse_parts (Sample.k_is 1) ["k"].
Proof.
  split; [reflexivity|]. split; [reflexivity|]. split.
  - eexists. split; [|reflexivity]. reflexivity.
  - split; [reflexivity | discriminate].
Qed.

(** C1, amended: with [ext_pillar_first], [compile_pillar] applies the
    external sources to the override data to produce a base tree, renders
    the matched state files with that base tree as [opts['pillar']], and
    merges the rendered tree over the base tree: the source stage yields
    [merge(base, rendered)], and every key that the rendered tree maps to a
    scalar has the rendered tree's value in the result (before the
    override is merged again). *)
Theorem C1_ext_first_rendered_wins :
  forall fuel c self0 dirs self top top_errors base errors rendered errors' final,
    later_wins (merge c) ->
    get_top c self0 = Ok (self, top, top_errors) ->
    opt_ext_pillar_first (opts self) = true ->
    ext_pillar c self (pillar_override self) dirs [] = Ok (base, errors) ->
    render_pillar fuel c
      (set_opts_rend self (set_opt_pillar (opts self) base)
         (Loaded (set_opt_pillar (opts self) base)))
      (top_matches c
         (set_opts_rend self (set_opt_pillar (opts self) base)
            (Loaded (set_opt_pillar (opts self) base)))
         top)
      errors
    = Some (Ok (rendered, errors')) ->
    wf_value rendered = true ->
    merge c base rendered = Ok final ->
    compile_sources fuel c self0 true dirs
    = Some (Ok (set_opts_rend self (set_opt_pillar (opts self) base)
                  (Loaded (set_opt_pillar (opts self) base)),
                final, errors', top_errors)) /\
    (forall k v,
        traverse_parts rendered [k] = Some v -> hashable v = true ->
        traverse_parts final [k] = Some v).
Proof.
  intros * Hlaw Htop Hfirst Hext Hrender Hwf Hmerge. split.
  - unfold compile_sources. rewrite Htop. cbn [fbind].
    rewrite Hfirst, Hext. cbn [fbind]. rewrite Hrender. cbn [fbind].
    now rewrite Hmerge.
  - intros k v Hk Hv. exact (Hlaw _ _ _ _ _ Hmerge Hwf Hk Hv).
Qed.

Lemma C1_ext_first_rendered_wins_witness :
  compile_sources 2 Sample.ext_first_collab Sample.ext_first_self true VNone
  = Some (Ok (set_opts_rend Sample.ext_first_self
                (set_opt_pillar (opts Sample.ext_first_self) (Sample.k_is 1))
                (Loaded (set_opt_pillar (opts Sample.ext_first_self)
                           (Sample.k_is 1))),
              Sample.k_is 3, [], [])) /\
  (forall k v,
      traverse_parts (Sample.k_is 3) [k] = Some v -> hashable v = true ->
      traverse_parts (Sample.k_is 3) [k] = Some v).
Proof.
  apply (C1_ext_first_rendered_wins 2 Sample.ext_first_collab
           Sample.ext_first_self VNone Sample.ext_first_self
           [("base", [("*", [VStr "foo"])])] [] (Sample.k_is 1) []
           (Sample.k_is 3) [] (Sample.k_is 3)
           merge_recurse_later_wins eq_refl eq_refl eq_refl eq_refl
           eq_refl eq_refl).
Defined.

(** ** The key of an include declaration *)





(** * Further properties of the compiler *)

(** ** [sort_top_targets] *)

Lemma insert_by_hdrel {A : Type} (a : Z) (x : Z * A) l :
  (a <= fst x)%Z -> HdRel Z.le a (order_keys l) ->
  HdRel Z.le a (order_keys (insert_by x l)).
Proof.
  intros Hx Hl. destruct l as [|y l]; simpl.
  - now constructor.
  - destruct (Z.leb (fst x) (fst y)); simpl; constructor; auto.
    now inversion Hl.
Qed.

Lemma insert_by_sorted {A : Type} (x : Z * A) l :
  Sorted Z.le (order_keys l) -> Sorted Z.le (order_keys (insert_by x l)).
Proof.
  induction l as [|y l IH]; simpl; intros Hs.
  - repeat constructor.
  - destruct (Z.leb (fst x) (fst y)) eqn:E; simpl.
    + constructor; auto. constructor. now apply Z.leb_le.
    + inversion Hs as [|? ? Hs' Hhd]; subst.
      constructor; [now apply IH|].
      apply insert_by_hdrel; auto.
      apply Z.leb_gt in E. lia.
Qed.

Lemma sorted_by_sorted {A : Type} (l : list (Z * A)) :
  Sorted Z.le (order_keys (sorted_by l)).
Proof.
  induction l as [|x l IH]; simpl; [constructor|].
  now apply insert_by_sorted.
Qed.

Lemma insert_by_filter {A : Type} (z : Z) (x : Z * A) l :
  filter (fun kt => Z.eqb (fst kt) z) (insert_by x l)
  = filter (fun kt => Z.eqb (fst kt) z) (x :: l).
Proof.
  induction l as [|y l IH]; simpl; auto.
  destruct (Z.leb (fst x) (fst y)) eqn:E; simpl; auto.
  rewrite IH. simpl.
  destruct (Z.eqb (fst x) z) eqn:Ex, (Z.eqb (fst y) z) eqn:Ey; auto.
  apply Z.eqb_eq in Ex, Ey. apply Z.leb_gt in E. lia.
Qed.

Lemma sorted_by_filter {A : Type} (z : Z) (l : list (Z * A)) :
  filter (fun kt => Z.eqb (fst kt) z) (sorted_by l)
  = filter (fun kt => Z.eqb (fst kt) z) l.
Proof.
  induction l as [|x l IH]; simpl; auto.
  rewrite insert_by_filter. simpl. now rewrite IH.
Qed.

Lemma keyed_forall orders env targets ks :
  keyed orders env targets = Ok ks ->
  Forall (fun kt => order_key orders env (fst (snd kt)) = Ok (fst kt)) ks.
Proof.
  revert ks. induction targets as [|[tgt v] rest IH]; simpl; intros ks H.
  - inversion H. constructor.
  - apply bind_ok in H as (k & Hk & H). apply bind_ok in H as (ks' & Hks & H).
    inversion H. constructor; auto.
Qed.

Lemma keyed_of_forall orders env l :
  Forall (fun kt => order_key orders env (fst (snd kt)) = Ok (fst kt)) l ->
  keyed orders env (map snd l) = Ok l.
Proof.
  induction l as [|[k [tgt v]] l IH]; simpl; intros H; auto.
  inversion H as [|? ? Hk Hl]; subst. simpl in Hk.
  rewrite Hk. simpl. rewrite (IH Hl). reflexivity.
Qed.

(** X1: [sort_top_targets] keeps the environments in place and, in each
    one, returns the targets permuted into non-decreasing recorded order,
    the targets of equal order in the order they had. *)
Theorem sort_top_targets_sorted_stable :
  forall top orders sorted,
    sort_top_targets top orders = Ok sorted ->
    Forall2
      (fun et et' =>
         fst et' = fst et /\
         exists ks ks',
           keyed orders (fst et) (snd et) = Ok ks /\
           keyed orders (fst et) (snd et') = Ok ks' /\
           Permutation ks' ks /\
           Sorted Z.le (order_keys ks') /\
           forall z, filter (fun kt => Z.eqb (fst kt) z) ks'
                     = filter (fun kt => Z.eqb (fst kt) z) ks)
      top sorted.
Proof.
  induction top as [|[env targets] rest IH]; simpl; intros orders sorted H.
  - inversion H. constructor.
  - apply bind_ok in H as (ks & Hks & H).
    apply bind_ok in H as (rest' & Hrest & H). inversion H. subst sorted.
    constructor; [|now apply IH]. simpl. split; auto.
    exists ks, (sorted_by ks). split; auto. split.
    + apply keyed_of_forall.
      eapply Permutation_Forall; [apply Permutation_sym, sorted_by_perm|].
      now apply keyed_forall with (targets := targets).
    + split; [apply sorted_by_perm|]. split; [apply sorted_by_sorted|].
      intros z. apply sorted_by_filter.
Qed.

Lemma sort_top_targets_sorted_stable_witness :
  Forall2
    (fun et et' =>
       fst et' = fst et /\
       exists ks ks',
         keyed [("base", [("web*", 2%Z); ("db*", 1%Z); ("*", 1%Z)])]
           (fst et) (snd et) = Ok ks /\
         keyed [("base", [("web*", 2%Z); ("db*", 1%Z); ("*", 1%Z)])]
           (fst et) (snd et') = Ok ks' /\
         Permutation ks' ks /\
         Sorted Z.le (order_keys ks') /\
         forall z, filter (fun kt => Z.eqb (fst kt) z) ks'
                   = filter (fun kt => Z.eqb (fst kt) z) ks)
    [("base", [("web*", [VStr "web"]); ("db*", [VStr "db"]);
               ("*", [VStr "common"])])]
    [("base", [("db*", [VStr "db"]); ("*", [VStr "common"]);
               ("web*", [VStr "web"])])].
Proof.
  apply (sort_top_targets_sorted_stable
           [("base", [("web*", [VStr "web"]); ("db*", [VStr "db"]);
                      ("*", [VStr "common"])])]
           [("base", [("web*", 2%Z); ("db*", 1%Z); ("*", 1%Z)])]
           [("base", [("db*", [VStr "db"]); ("*", [VStr "common"]);
                      ("web*", [VStr "web"])])]
           eq_refl).
Defined.

(** ** [merge_tops] and [get_top] *)

Lemma mem_app_l x l l' : mem x l = true -> mem x (l ++ l') = true.
Proof.
  induction l as [|y l IH]; simpl; [discriminate|].
  destruct (String.eqb x y); auto.
Qed.

Lemma mem_app_last x l : mem x (l ++ [x]) = true.
Proof.
  induction l as [|y l IH]; simpl.
  - now rewrite String.eqb_refl.
  - destruct (String.eqb x y); auto.
Qed.

Lemma mem_app_r x l l' : mem x l' = true -> mem x (l ++ l') = true.
Proof.
  induction l as [|y l IH]; simpl; auto.
  destruct (String.eqb x y); auto.
Qed.

Lemma scan_comp_grows s comp s' :
  scan_comp s comp = Ok s' ->
  subset (sc_states s) (sc_states s') /\
  (sc_ignore_missing s = true -> sc_ignore_missing s' = true).
Proof.
  unfold subset. destruct comp; simpl; intros H;
    try (inversion H; subst; split; auto; fail).
  - inversion H; subst; simpl. split; auto.
    intros x Hx. destruct (mem s0 (sc_states s)); auto. now apply mem_app_l.
  - apply bind_ok in H as (o & _ & H). inversion H; subst; simpl.
    split; auto. intros Hi. rewrite Hi.
    destruct (dict_get "ignore_missing" d); auto. now destruct (truthy v).
Qed.

Lemma scan_comps_grows comps :
  forall s s',
    scan_comps s comps = Ok s' ->
    subset (sc_states s) (sc_states s') /\
    (sc_ignore_missing s = true -> sc_ignore_missing s' = true).
Proof.
  induction comps as [|comp rest IH]; simpl; intros s s' H.
  - inversion H. subst. split; auto. intros x Hx. exact Hx.
  - apply bind_ok in H as (s1 & Hstep & Hmore).
    destruct (scan_comp_grows _ _ _ Hstep) as [Hs1 Hi1].
    destruct (IH _ _ Hmore) as [Hs2 Hi2].
    split; auto. intros x Hx. auto.
Qed.

Lemma scan_comps_state comps name :
  In (VStr name) comps ->
  forall s s', scan_comps s comps = Ok s' -> mem name (sc_states s') = true.
Proof.
  induction comps as [|comp rest IH]; simpl; [tauto|].
  intros [Hc|Hin] s s' H; apply bind_ok in H as (s1 & Hstep & Hmore).
  - subst comp. simpl in Hstep. inversion Hstep. subst s1.
    apply (proj1 (scan_comps_grows _ _ _ Hmore)). simpl.
    destruct (mem name (sc_states s)) eqn:E; auto. apply mem_app_last.
  - eapply IH; eauto.
Qed.

Lemma scan_comps_ignore comps d v :
  In (VDict d) comps -> dict_get "ignore_missing" d = Some v -> truthy v = true ->
  forall s s', scan_comps s comps = Ok s' -> sc_ignore_missing s' = true.
Proof.
  intros Hin Hd Hv. induction comps as [|comp rest IH]; simpl; [destruct Hin|].
  destruct Hin as [Hc|Hin]; intros s s' H;
    apply bind_ok in H as (s1 & Hstep & Hmore).
  - subst comp. simpl in Hstep. apply bind_ok in Hstep as (o & _ & Hstep).
    inversion Hstep. subst s1.
    apply (proj2 (scan_comps_grows _ _ _ Hmore)). simpl.
    now rewrite Hd, Hv.
  - eapply IH; eauto.
Qed.

Lemma ignored_for_extend_same env xs ign :
  ignored_for env (dict_extend env xs ign) = ignored_for env ign ++ xs.
Proof.
  unfold ignored_for, dict_extend.
  destruct (dict_get env ign) eqn:E.
  - now rewrite dict_get_set_same.
  - rewrite dict_get_app, E. simpl. now rewrite String.eqb_refl.
Qed.

Lemma ignored_for_extend_other env env' xs ign :
  env' <> env ->
  ignored_for env' (dict_extend env xs ign) = ignored_for env' ign.
Proof.
  intros Hne. unfold ignored_for, dict_extend.
  destruct (dict_get env ign) eqn:E.
  - now rewrite dict_get_set_other.
  - rewrite dict_get_app. destruct (dict_get env' ign); auto.
    simpl. apply String.eqb_neq in Hne. now rewrite Hne.
Qed.

Lemma ignored_for_extend_grows env env' xs ign :
  subset (ignored_for env' ign) (ignored_for env' (dict_extend env xs ign)).
Proof.
  intros x Hx. destruct (String.eqb env' env) eqn:E.
  - apply String.eqb_eq in E. subst env'.
    rewrite ignored_for_extend_same. now apply mem_app_l.
  - apply String.eqb_neq in E. now rewrite ignored_for_extend_other.
Qed.

Lemma merge_blocks_ignored_grows blocks env' :
  forall top orders ign top' orders' ign',
    merge_blocks blocks (top, orders, ign) = Ok (top', orders', ign') ->
    subset (ignored_for env' ign) (ignored_for env' ign').
Proof.
  induction blocks as [|[[env tgt] comps] rest IH]; simpl; intros * H.
  - inversion H. subst. intros x Hx. exact Hx.
  - apply bind_ok in H as ([[top1 orders1] ign1] & Hstep & Hmore).
    unfold merge_target in Hstep.
    apply bind_ok in Hstep as (s & _ & Hstep). inversion Hstep. subst.
    intros x Hx. apply (IH _ _ _ _ _ _ Hmore).
    destruct (sc_ignore_missing s); auto.
    now apply ignored_for_extend_grows.
Qed.

(** A block that carries a truthy [ignore_missing] puts each of its bare
    names into the ignored list of its environment, and later blocks keep
    them there. *)
Lemma merge_blocks_records_ignored pre env tgt comps post d v name :
  In (VDict d) comps -> dict_get "ignore_missing" d = Some v -> truthy v = true ->
  In (VStr name) comps ->
  forall st top orders ign,
    merge_blocks (pre ++ (env, tgt, comps) :: post) st = Ok (top, orders, ign) ->
    mem name (ignored_for env ign) = true.
Proof.
  intros Hd Hget Hv Hname st top orders ign H.
  rewrite merge_blocks_app in H.
  apply bind_ok in H as ([[top0 orders0] ign0] & _ & H). simpl in H.
  apply bind_ok in H as ([[top1 orders1] ign1] & Hstep & Hmore).
  apply (merge_blocks_ignored_grows _ env _ _ _ _ _ _ Hmore).
  unfold merge_target in Hstep.
  apply bind_ok in Hstep as (s & Hs & Hstep). inversion Hstep. subst.
  rewrite (scan_comps_ignore _ _ _ Hd Hget Hv _ _ Hs).
  rewrite ignored_for_extend_same. apply mem_app_r.
  now apply (scan_comps_state _ _ Hname _ _ Hs).
Qed.

(** X2: a state that a top-file target names beside a truthy
    [ignore_missing] entry and whose file is missing is skipped in
    silence: after [merge_tops], [render_pstate] returns no tree, the
    visited set as it was and no error for it. *)
Theorem ignore_missing_is_silent :
  forall fuel c self tops self' merged pre env tgt comps post d v name
         mods renderers_arg defaults_arg,
    merge_tops self tops = Ok (self', merged) ->
    top_blocks tops = pre ++ (env, tgt, comps) :: post ->
    In (VDict d) comps ->
    dict_get "ignore_missing" d = Some v -> truthy v = true ->
    In (VStr name) comps ->
    get_state c name env = None ->
    render_pstate (S fuel) c self' name env mods renderers_arg defaults_arg
    = Some (Ok (VNone, mods, [])).
Proof.
  intros * Hmerge Hblocks Hd Hget Hv Hname Hmissing.
  unfold merge_tops in Hmerge.
  apply bind_ok in Hmerge as ([[top orders] ign] & Hloop & Hmerge).
  apply bind_ok in Hmerge as (sorted & _ & Hmerge). inversion Hmerge. subst.
  rewrite merge_tops_loop_blocks, Hblocks in Hloop.
  assert (Hin := merge_blocks_records_ignored _ _ _ _ _ _ _ _
                   Hd Hget Hv Hname _ _ _ _ Hloop).
  unfold ignored_for in Hin.
  cbn [render_pstate]. rewrite Hmissing.
  cbn [ignored_pillars set_ignored_pillars]. now rewrite Hin.
Qed.

Lemma ignore_missing_is_silent_witness :
  render_pstate 1 Sample.key_collab
    (set_ignored_pillars Sample.plain_self [("base", ["ghost"])])
    "ghost" "base" [] None VNone
  = Some (Ok (VNone, [], [])).
Proof.
  apply (ignore_missing_is_silent 0 Sample.key_collab Sample.plain_self
           [("base", [Sample2.fragment_ignore])]
           (set_ignored_pillars Sample.plain_self [("base", ["ghost"])])
           [("base", [("*", [VStr "ghost"])])]
           [] "base" "*"
           [VDict [("ignore_missing", VBool true)]; VStr "ghost"] []
           [("ignore_missing", VBool true)] (VBool true) "ghost"
           [] None VNone eq_refl eq_refl);
    simpl; auto.
Defined.

(** X3: a missing state file that is not ignored, in an environment with
    a configured pillar root, is reported: when the render of the missing
    file yields nothing, [render_pstate] returns that value, marks the
    name as visited and returns the one error that names the state and the
    environment. *)
Theorem missing_state_is_reported :
  forall fuel c self sls env mods renderers_arg defaults_arg root roots empty,
    get_state c sls env = None ->
    mem sls (ignored_for env (ignored_pillars self)) = false ->
    dict_get env (opt_pillar_roots (opts self)) = Some (root :: roots) ->
    compile_sls c None
      match renderers_arg with Some x => x | None => rend self end
      env sls
      match defaults_arg with VNone => VDict [] | x => x end
    = Ok empty ->
    truthy empty = false ->
    render_pstate (S fuel) c self sls env mods renderers_arg defaults_arg
    = Some (Ok (empty, set_add sls mods, [not_available_msg sls env])).
Proof.
  intros * Hmissing Hign Hroots Hrender Hempty.
  unfold ignored_for in Hign.
  cbn [render_pstate]. rewrite Hmissing, Hign, Hroots, Hrender, Hempty.
  reflexivity.
Qed.

Lemma missing_state_is_reported_witness :
  render_pstate 1 Sample.key_collab Sample.plain_self "ghost" "base" []
    None VNone
  = Some (Ok (VDict [], set_add "ghost" [],
              [not_available_msg "ghost" "base"])).
Proof.
  apply (missing_state_is_reported 0 Sample.key_collab Sample.plain_self
           "ghost" "base" [] None VNone "/srv/pillar/base" [] (VDict []));
    reflexivity.
Defined.

Lemma order_of_raises v e : order_of v = Raise e -> is_TypeError e = true.
Proof.
  destruct v; simpl; intros H; try discriminate; now inversion H.
Qed.

Lemma scan_comps_raises comps :
  forall s e, scan_comps s comps = Raise e -> is_TypeError e = true.
Proof.
  induction comps as [|comp rest IH]; simpl; intros s e H; [discriminate|].
  destruct (scan_comp s comp) as [s1|e1] eqn:Hstep; simpl in H.
  - eapply IH; eauto.
  - inversion H. subst e1.
    destruct comp; simpl in Hstep; try discriminate.
    destruct (dict_get "order" d) as [v|]; simpl in Hstep; [|discriminate].
    destruct (order_of v) eqn:Ho; simpl in Hstep; [discriminate|].
    inversion Hstep. subst. eapply order_of_raises; eauto.
Qed.

Lemma merge_blocks_raises blocks :
  forall st e, merge_blocks blocks st = Raise e -> is_TypeError e = true.
Proof.
  induction blocks as [|[[env tgt] comps] rest IH]; simpl; intros st e H;
    [discriminate|].
  destruct (merge_target env tgt comps st) as [st1|e1] eqn:Hstep; simpl in H.
  - eapply IH; eauto.
  - inversion H. subst e1. destruct st as [[top orders] ign].
    unfold merge_target in Hstep.
    destruct (scan_comps scan0 comps) eqn:Hs; simpl in Hstep; [discriminate|].
    inversion Hstep. subst. eapply scan_comps_raises; eauto.
Qed.

Lemma dict_set_in {V : Type} (d : list (string * V)) k v p :
  In p (dict_set k v d) -> In p d \/ p = (k, v).
Proof.
  induction d as [|[k0 v0] d IH]; simpl.
  - intros [H|[]]. now right.
  - destruct (String.eqb k k0) eqn:E; simpl.
    + apply String.eqb_eq in E. subst k0. intros [H|H]; auto.
    + intros [H|H]; auto. destruct (IH H); auto.
Qed.

Lemma dict_get2_set2_defined {V : Type} env tgt env' tgt' (x : V) d :
  dict_get2 env tgt d <> None ->
  dict_get2 env tgt (dict_set2 env' tgt' x d) <> None.
Proof.
  intros Hdef.
  destruct (String.eqb env env' && String.eqb tgt tgt') eqn:E.
  - apply andb_prop in E as [Ee Et].
    apply String.eqb_eq in Ee, Et. subst.
    rewrite dict_get2_set2_same. discriminate.
  - now rewrite dict_get2_set2_other.
Qed.

Lemma merge_blocks_cover blocks :
  forall top orders ign top' orders' ign',
    orders_cover top orders ->
    merge_blocks blocks (top, orders, ign) = Ok (top', orders', ign') ->
    orders_cover top' orders'.
Proof.
  induction blocks as [|[[env tgt] comps] rest IH]; simpl; intros * Hc H.
  - now inversion H; subst.
  - apply bind_ok in H as ([[top1 orders1] ign1] & Hstep & Hmore).
    unfold merge_target in Hstep.
    apply bind_ok in Hstep as (s & _ & Hstep). inversion Hstep. subst.
    eapply IH; [|exact Hmore]. clear IH Hmore Hstep.
    intros e ts t Hin Ht. unfold dict_set2 at 1 in Hin.
    destruct (dict_get env top) as [inner|] eqn:E.
    + apply dict_set_in in Hin as [Hin|Hin].
      * apply dict_get2_set2_defined. eapply Hc; eauto.
      * inversion Hin. subst e ts.
        apply dict_keys_set_in in Ht as [Ht|Ht].
        -- subst t. rewrite dict_get2_set2_same. discriminate.
        -- apply dict_get2_set2_defined.
           eapply Hc; [apply dict_get_in; exact E | exact Ht].
    + apply in_app_or in Hin as [Hin|[Hin|[]]].
      * apply dict_get2_set2_defined. eapply Hc; eauto.
      * inversion Hin. subst e ts. simpl in Ht. destruct Ht as [Ht|[]].
        subst t. rewrite dict_get2_set2_same. discriminate.
Qed.

Lemma keyed_total orders env targets :
  (forall tgt, In tgt (dict_keys targets) -> dict_get2 env tgt orders <> None) ->
  exists ks, keyed orders env targets = Ok ks.
Proof.
  unfold dict_keys. induction targets as [|[tgt v] rest IH]; simpl; intros Hc.
  - now exists [].
  - destruct IH as (ks & Hks); [intros; apply Hc; auto|].
    unfold order_key.
    destruct (dict_get2 env tgt orders) as [z|] eqn:E.
    + simpl. rewrite Hks. simpl. eauto.
    + exfalso. apply (Hc tgt); auto.
Qed.

Lemma sort_top_targets_total top :
  forall orders,
    (forall env targets tgt,
        In (env, targets) top -> In tgt (dict_keys targets) ->
        dict_get2 env tgt orders <> None) ->
    exists sorted, sort_top_targets top orders = Ok sorted.
Proof.
  induction top as [|[env targets] rest IH]; simpl; intros orders Hc.
  - now exists [].
  - destruct (keyed_total orders env targets) as (ks & Hks).
    { intros tgt Ht. eapply Hc; [left; reflexivity | exact Ht]. }
    destruct (IH orders) as (rest' & Hrest).
    { intros e ts t Hin Ht. eapply Hc; [right; exact Hin | exact Ht]. }
    rewrite Hks, Hrest. simpl. eauto.
Qed.

(** X4: what [get_top] makes of [merge_tops], once [get_tops] has
    returned.  When the loops of [merge_tops] finish, the sort finds an
    order for every target, because the loops record one beside each
    entry, and [get_top] returns the sorted top with the errors of
    [get_tops] as they are.  When [merge_tops] raises a [TypeError], as
    for [order: None], [get_top] returns an empty top and one more
    error. *)
Theorem get_top_after_merge_tops :
  forall c self tops errors,
    get_tops c self = (tops, errors) ->
    (forall top orders ign,
        merge_tops_loop tops ([], [], ignored_pillars self)
        = Ok (top, orders, ign) ->
        exists sorted,
          sort_top_targets top orders = Ok sorted /\
          get_top c self = Ok (set_ignored_pillars self ign, sorted, errors)) /\
    (forall e,
        merge_tops self tops = Raise e -> is_TypeError e = true ->
        exists self',
          get_top c self
          = Ok (self', [],
                errors ++ ["Error encountered while rendering pillar top file."])).
Proof.
  intros c self tops errors Htops. unfold get_top. rewrite Htops. split.
  - intros top orders ign Hloop. unfold merge_tops. rewrite Hloop. cbn [bind].
    destruct (sort_top_targets_total top orders) as (sorted & Hsort).
    { rewrite merge_tops_loop_blocks in Hloop.
      eapply merge_blocks_cover; [|exact Hloop]. intros e ts t []. }
    rewrite Hsort. cbn [bind]. eauto.
  - intros e He Hte. rewrite He, Hte. eauto.
Qed.

Lemma get_top_after_merge_tops_witness :
  (exists sorted,
      sort_top_targets [("base", [("*", [VStr "foo"])])] [("base", [("*", 0%Z)])]
      = Ok sorted /\
      get_top Sample.ext_first_collab Sample.plain_self
      = Ok (set_ignored_pillars Sample.plain_self [], sorted, [])) /\
  (exists self',
      get_top Sample3.order_none_collab Sample.plain_self
      = Ok (self', [], ["Error encountered while rendering pillar top file."])).
Proof.
  split.
  - apply (proj1 (get_top_after_merge_tops
                    Sample.ext_first_collab Sample.plain_self
                    (fst (get_tops Sample.ext_first_collab Sample.plain_self))
                    [] eq_refl)
             [("base", [("*", [VStr "foo"])])] [("base", [("*", 0%Z)])] []
             eq_refl).
  - apply (proj2 (get_top_after_merge_tops
                    Sample3.order_none_collab Sample.plain_self
                    (fst (get_tops Sample3.order_none_collab
                            Sample.plain_self))
                    [] eq_refl)
             (Exn TypeError "int() argument must be a string or a number")
             eq_refl eq_refl).
Defined.

(** ** [top_matches] *)

Lemma fold_left_invariant {A B : Type} (P : A -> Prop) (f : A -> B -> A) l :
  (forall a x, P a -> In x l -> P (f a x)) ->
  forall a, P a -> P (fold_left f l a).
Proof.
  induction l as [|x l IH]; simpl; intros Hf a Ha; [exact Ha|].
  apply IH; [intros; apply Hf; auto|]. apply Hf; auto.
Qed.

Lemma nodup_app_last (x : string) l :
  NoDup l -> mem x l = false -> NoDup (l ++ [x]).
Proof.
  intros Hnd Hx. apply mem_false_not_in in Hx.
  induction l as [|y l IH]; simpl.
  - repeat constructor. simpl. tauto.
  - inversion Hnd as [|? ? Hy Hl]; subst. constructor.
    + intros Hin. apply in_app_or in Hin as [Hin|[Hin|[]]]; [tauto|].
      subst. apply Hx. now left.
    + apply IH; auto. intros Hin. apply Hx. now right.
Qed.

Lemma add_matches_nodup data acc : NoDup acc -> NoDup (add_matches data acc).
Proof.
  unfold add_matches. apply fold_left_invariant.
  intros a item Ha _. destruct item; auto.
  destruct (mem s a) eqn:E; auto. now apply nodup_app_last.
Qed.

Lemma dict_set_forall_key {V : Type} (P : string * V -> Prop) d k v :
  P (k, v) -> Forall P d -> Forall P (dict_set k v d).
Proof.
  intros Hv. induction d as [|[k0 v0] d IH]; simpl; intros Hd.
  - constructor; auto.
  - inversion Hd; subst. destruct (String.eqb k k0) eqn:E; constructor; auto.
    apply String.eqb_eq in E. now subst k0.
Qed.

(** X5: [top_matches] lists every state name once per environment, and
    under a [pillarenv] filter it lists that environment alone. *)
Theorem top_matches_distinct_and_filtered :
  forall c self top env names,
    dict_get env (top_matches c self top) = Some names ->
    NoDup names /\
    (str_truthy (opt_pillarenv (opts self)) = true ->
     opt_pillarenv (opts self) = Some env).
Proof.
  intros c self top env names Hget.
  assert (Hinv :
    Forall (fun el => NoDup (snd el) /\
                      (str_truthy (opt_pillarenv (opts self)) = true ->
                       opt_pillarenv (opts self) = Some (fst el)))
           (top_matches c self top)).
  { unfold top_matches. apply fold_left_invariant; [|constructor].
    intros matches [e body] Hm _.
    destruct (str_truthy (opt_pillarenv (opts self))
              && negb (opt_str_eqb (opt_pillarenv (opts self)) e)) eqn:Hf; auto.
    assert (He : str_truthy (opt_pillarenv (opts self)) = true ->
                 opt_pillarenv (opts self) = Some e).
    { intros Ht. rewrite Ht in Hf. simpl in Hf.
      apply negb_false_iff in Hf. unfold opt_str_eqb in Hf.
      destruct (opt_pillarenv (opts self)); [|discriminate].
      apply String.eqb_eq in Hf. now subst. }
    apply fold_left_invariant; auto.
    intros matches' [tgt data] Hm' _.
    destruct (confirm_top c tgt data); auto.
    destruct (dict_get e matches') as [l|] eqn:El.
    - apply dict_set_forall_key; auto. simpl. split; auto.
      apply add_matches_nodup. apply dict_get_in in El.
      apply (proj1 (Forall_forall _ _) Hm' (e, l) El).
    - apply Forall_app. split; auto. constructor; [|constructor]. simpl.
      split; auto. apply add_matches_nodup. constructor. }
  apply dict_get_in in Hget.
  apply (proj1 (Forall_forall _ _) Hinv (env, names) Hget).
Qed.

Lemma top_matches_distinct_and_filtered_witness :
  NoDup ["web"; "common"] /\
  (str_truthy (opt_pillarenv (opts Sample.plain_self)) = true ->
   opt_pillarenv (opts Sample.plain_self) = Some "base").
Proof.
  apply (top_matches_distinct_and_filtered Sample2.decrypt_collab
           Sample.plain_self
           [("base", [("db*", [VStr "db"]); ("*", [VStr "web"; VStr "common"]);
                      ("web*", [VStr "web"])])]
           "base" ["web"; "common"] eq_refl).
Defined.

(** ** [render_pstate]: the visited set *)

Lemma subset_refl l : subset l l.
Proof. intros x Hx. exact Hx. Qed.

Lemma subset_trans l1 l2 l3 : subset l1 l2 -> subset l2 l3 -> subset l1 l3.
Proof. intros H12 H23 x Hx. auto. Qed.

Lemma set_add_grows s l : subset l (set_add s l).
Proof.
  intros x Hx. unfold set_add. destruct (mem s l); auto. now apply mem_app_l.
Qed.

Lemma set_add_mem s l : mem s (set_add s l) = true.
Proof.
  unfold set_add. destruct (mem s l) eqn:E; auto. apply mem_app_last.
Qed.

(** Entries that name visited files leave the state of the loop alone. *)
Lemma include_loop_visited c rec names :
  forall state mods errors defaults,
    (forall n, In n names -> mem n mods = true) ->
    include_loop c rec (map VStr names) (state, mods, errors, defaults)
    = Some (Ok (state, mods, errors, defaults)).
Proof.
  induction names as [|n rest IH]; simpl; intros * Hvisited; auto.
  rewrite (Hvisited n) by now left. simpl. apply IH. intros; apply Hvisited.
  now right.
Qed.

(** X6: includes of files that were already visited, the file itself
    among them, are not rendered again: [render_pstate] returns the file's
    own data without the [include] key after a single render, whatever the
    fuel. *)
Theorem visited_includes_are_not_rendered :
  forall fuel c self sls env mods renderers_arg defaults_arg fn_ d names,
    get_state c sls env = Some fn_ ->
    compile_sls c (Some fn_)
      match renderers_arg with Some x => x | None => rend self end
      env sls
      match defaults_arg with VNone => VDict [] | x => x end
    = Ok (VDict d) ->
    dict_get "include" d = Some (VList (map VStr names)) ->
    (forall n, In n names -> mem n (set_add sls mods) = true) ->
    render_pstate (S fuel) c self sls env mods renderers_arg defaults_arg
    = Some (Ok (VDict (dict_remove "include" d), set_add sls mods, [])).
Proof.
  intros * Hfn Hrender Hinc Hvisited.
  cbn [render_pstate]. rewrite Hfn, Hrender.
  assert (Ht : truthy (VDict d) = true).
  { destruct d; [discriminate | reflexivity]. }
  rewrite Ht, Hinc, include_loop_visited by exact Hvisited.
  reflexivity.
Qed.

Lemma visited_includes_are_not_rendered_witness :
  render_pstate 1 Sample2.loop_collab Sample.plain_self "loop" "base" []
    None VNone
  = Some (Ok (VDict (dict_remove "include"
                       [("x", VInt 1); ("include", VList [VStr "loop"])]),
              set_add "loop" [], [])).
Proof.
  apply (visited_includes_are_not_rendered 0 Sample2.loop_collab
           Sample.plain_self "loop" "base" [] None VNone
           "/srv/pillar/base/loop.sls"
           [("x", VInt 1); ("include", VList [VStr "loop"])] ["loop"]
           eq_refl eq_refl eq_refl).
  intros n [Hn|[]]. subst n. reflexivity.
Defined.

Lemma include_entry_grows c (rec : renderer_fn) :
  (forall sub m r d state m' errs,
      rec sub m r d = Some (Ok (state, m', errs)) -> subset m m') ->
  forall state mods errors defaults entry state' mods' errors' defaults',
    include_entry c rec (state, mods, errors, defaults) entry
    = Some (Ok (state', mods', errors', defaults')) ->
    subset mods mods'.
Proof.
  intros Hrec * H. unfold include_entry in H.
  apply fbind_ok in H as ([[sub dflt] key] & _ & H).
  destruct sub; try discriminate.
  destruct (mem s mods).
  - inversion H. subst. apply subset_refl.
  - apply fbind_ok in H as ([[nstate m1] err] & Hnested & H).
    apply fbind_ok in H as (st1 & _ & H). inversion H. subst.
    eapply Hrec; eauto.
Qed.

Lemma include_loop_grows c (rec : renderer_fn) entries :
  (forall sub m r d state m' errs,
      rec sub m r d = Some (Ok (state, m', errs)) -> subset m m') ->
  forall state mods errors defaults state' mods' errors' defaults',
    include_loop c rec entries (state, mods, errors, defaults)
    = Some (Ok (state', mods', errors', defaults')) ->
    subset mods mods'.
Proof.
  intros Hrec. induction entries as [|entry rest IH];
    cbn [include_loop]; intros * H.
  - inversion H. subst. apply subset_refl.
  - apply fbind_ok in H as ([[[st1 m1] e1] d1] & Hstep & Hmore).
    eapply subset_trans.
    + eapply include_entry_grows; eauto.
    + eapply IH; eauto.
Qed.

(** X7: the visited set of [render_pstate] only grows: whatever a render
    returns, every name that was visited before is visited after, through
    every nested include. *)
Theorem render_pstate_visited_grows :
  forall fuel c self sls env mods renderers_arg defaults_arg state mods' errors,
    render_pstate fuel c self sls env mods renderers_arg defaults_arg
    = Some (Ok (state, mods', errors)) ->
    subset mods mods'.
Proof.
  induction fuel as [|fuel IH]; intros * H; [discriminate|].
  cbn [render_pstate] in H.
  destruct (match get_state c sls env with
            | Some _ => None
            | None => _
            end) as [[msg|]|] eqn:Hmissing.
  - destruct (compile_sls _ _ _ _ _ _) as [v|e].
    + destruct (truthy v); [|inversion H; subst; apply set_add_grows].
      destruct v; try (inversion H; subst; apply set_add_grows).
      destruct (dict_get "include" d) as [inc|];
        [|inversion H; subst; apply set_add_grows].
      destruct inc; try (inversion H; subst; apply set_add_grows).
      apply fbind_ok in H as ([[[st1 m1] e1] d1] & Hloop & H).
      inversion H. subst.
      eapply subset_trans; [apply set_add_grows|].
      eapply include_loop_grows; [|exact Hloop].
      intros sub m r0 d0 st0 m0 e0 Hnested. eapply IH. exact Hnested.
    + simpl in H. inversion H. subst. apply set_add_grows.
  - inversion H. subst. apply subset_refl.
  - destruct (compile_sls _ _ _ _ _ _) as [v|e].
    + destruct (truthy v); [|inversion H; subst; apply set_add_grows].
      destruct v; try (inversion H; subst; apply set_add_grows).
      destruct (dict_get "include" d) as [inc|];
        [|inversion H; subst; apply set_add_grows].
      destruct inc; try (inversion H; subst; apply set_add_grows).
      apply fbind_ok in H as ([[[st1 m1] e1] d1] & Hloop & H).
      inversion H. subst.
      eapply subset_trans; [apply set_add_grows|].
      eapply include_loop_grows; [|exact Hloop].
      intros sub m r0 d0 st0 m0 e0 Hnested. eapply IH. exact Hnested.
    + simpl in H. inversion H. subst. apply set_add_grows.
Qed.

Lemma render_pstate_visited_grows_witness :
  subset ["seen"] (set_add "bar" (set_add "foo" ["seen"])).
Proof.
  apply (render_pstate_visited_grows 2 Sample.key_collab Sample.plain_self
           "foo" "base" ["seen"] None VNone
           (VDict [("own", VInt 7);
                   ("a", VDict [("b", VDict [("x", VInt 1)])])])
           (set_add "bar" (set_add "foo" ["seen"])) [] eq_refl).
Defined.

(** ** [render_pillar] *)

(** X8: a state file whose render raises does not stop the others: it
    adds one error (the redacted one unless [pillar_safe_render_error] is
    off), is marked as visited, and the remaining files are rendered from
    the pillar as it was. *)
Theorem failed_render_does_not_stop_the_others :
  forall fuel c self env sls rest pillar mods errors fn_ e,
    get_state c sls env = Some fn_ ->
    compile_template c (Some fn_) (Loaded (set_opt_pillar (opts self) pillar))
      env sls [] = Raise e ->
    render_files (S fuel) c self env (sls :: rest) pillar mods errors
    = render_files (S fuel) c self env rest pillar (set_add sls mods)
        (errors ++ [if opt_pillar_safe_render_error (opts self)
                    then render_failed_safe_msg sls
                    else render_failed_msg sls e]).
Proof.
  intros * Hfn Hraise.
  cbn [render_files render_pstate]. rewrite Hfn.
  cbn [compile_sls]. rewrite Hraise. reflexivity.
Qed.

Lemma failed_render_does_not_stop_the_others_witness :
  render_files 1 Sample2.loop_collab Sample.plain_self "base"
    ["bad"; "loop"] (VDict []) [] []
  = Some (Ok (VDict [("x", VInt 1)], ["bad"; "loop"],
              [render_failed_safe_msg "bad"])).
Proof.
  rewrite (failed_render_does_not_stop_the_others 0 Sample2.loop_collab
             Sample.plain_self "base" "bad" ["loop"] (VDict []) [] []
             "/srv/pillar/base/bad.sls"
             (Exn OtherException "mapping values are not allowed here")
             eq_refl eq_refl).
  reflexivity.
Defined.

Lemma expand_matches_fold c self env pstates :
  forall files errors,
    fold_left
      (fun '(pstatefiles, errs) sls_match =>
         let '(matched_pstates, errs') :=
           match dict_get env (avail self) with
           | Some l => (fnmatch_filter c l sls_match, errs)
           | None => ([], errs ++ [no_env_msg env])
           end in
         match matched_pstates with
         | [] => (pstatefiles ++ [sls_match], errs')
         | _ => (pstatefiles ++ matched_pstates, errs')
         end)
      pstates (files, errors)
    = match dict_get env (avail self) with
      | Some l =>
          (files ++ flat_map (fun pat => match fnmatch_filter c l pat with
                                         | [] => [pat]
                                         | matched => matched
                                         end) pstates,
           errors)
      | None => (files ++ pstates, errors ++ map (fun _ => no_env_msg env) pstates)
      end.
Proof.
  induction pstates as [|pat rest IH]; intros files errors; simpl.
  - destruct (dict_get env (avail self)); now rewrite !app_nil_r.
  - destruct (dict_get env (avail self)) as [l|] eqn:E.
    + destruct (fnmatch_filter c l pat) as [|m ms] eqn:Em;
        rewrite IH, <- app_assoc; reflexivity.
    + rewrite IH, <- !app_assoc. reflexivity.
Qed.

(** X9: the glob expansion of [render_pillar] drops no request and keeps
    the order: a pattern is replaced by the available names it matches, or
    kept as a literal name when it matches none; for an environment that
    has no list of available states every request is kept literally and
    adds one error. *)
Theorem expand_matches_keeps_every_request :
  forall c self env pstates errors,
    expand_matches c self env pstates errors
    = match dict_get env (avail self) with
      | Some l =>
          (flat_map (fun pat => match fnmatch_filter c l pat with
                                | [] => [pat]
                                | matched => matched
                                end) pstates,
           errors)
      | None => (pstates, errors ++ map (fun _ => no_env_msg env) pstates)
      end.
Proof.
  intros. unfold expand_matches. now rewrite expand_matches_fold.
Qed.

(** ** [ext_pillar]: errors and odd entries *)

Lemma extends_refl l : extends l l.
Proof. exists []. now rewrite app_nil_r. Qed.

Lemma extends_trans l1 l2 l3 : extends l1 l2 -> extends l2 l3 -> extends l1 l3.
Proof.
  intros [m1 H1] [m2 H2]. exists (m1 ++ m2). subst. now rewrite app_assoc.
Qed.

Lemma extends_app l m : extends l (l ++ m).
Proof. now exists m. Qed.

Lemma dispatch_items_extend c self pillar dirs items :
  forall errors ext_,
    extends errors
      (fst (fold_left (dispatch_item c self pillar dirs) items (errors, ext_))).
Proof.
  induction items as [|[key val] rest IH]; intros errors ext_; simpl.
  - apply extends_refl.
  - destruct (ext_pillars c key); [|apply IH].
    destruct (_external_pillar_data c self pillar val dirs key); [apply IH|].
    eapply extends_trans; [apply extends_app | apply IH].
Qed.

Lemma ext_pillar_runs_extend c self dirs runs :
  forall p e x p' e',
    ext_pillar_runs c self dirs runs p e x = Ok (p', e') -> extends e e'.
Proof.
  induction runs as [|run rest IH]; simpl; intros p e x p' e' H.
  - inversion H. apply extends_refl.
  - destruct run as [| | | | |d];
      try (inversion H; subst; apply extends_app).
    destruct d as [|[key0 val0] items]; [discriminate|].
    destruct (mem key0 (opt_exclude_ext_pillar (opts self))); [eapply IH; eauto|].
    assert (Hd := dispatch_items_extend c self p dirs ((key0, val0) :: items) e x).
    destruct (fold_left _ _ _) as [errors' ext']. simpl in Hd.
    eapply extends_trans; [exact Hd|].
    destruct (truthy ext'); [|eapply IH; eauto].
    destruct (merge c p ext'); simpl in H; [eapply IH; eauto | discriminate].
Qed.

(** X10: [ext_pillar] never drops an error: the errors it returns start
    with the errors it was given, also when a malformed entry makes it
    return an empty tree. *)
Theorem ext_pillar_keeps_errors :
  forall c self pillar dirs errors pillar' errors',
    ext_pillar c self pillar dirs errors = Ok (pillar', errors') ->
    extends errors errors'.
Proof.
  intros * H. unfold ext_pillar in H.
  apply bind_ok in H as (u & _ & H).
  destruct (opt_ext_pillar (opts self)) as [cfg|].
  - destruct cfg; try (inversion H; subst; apply extends_app).
    apply bind_ok in H as (p0 & _ & H).
    eapply ext_pillar_runs_extend; eauto.
  - inversion H. apply extends_refl.
Qed.

Lemma ext_pillar_keeps_errors_witness :
  extends ["earlier"] (["earlier"] ++ [malformed_msg]).
Proof.
  apply (ext_pillar_keeps_errors Sample.sources_collab
           (Sample.sources_self (VList [VDict [("s1", VDict [])]; VStr "cmd_yaml"]))
           (VDict []) VNone ["earlier"] (VDict [])
           (["earlier"] ++ [malformed_msg]) eq_refl).
Defined.

(** X11: an entry whose first key is in [exclude_ext_pillar] is passed
    over as a whole, whatever else it holds: the run over the list with
    the entry is the run over the list without it. *)
Theorem excluded_entry_is_skipped :
  forall c self dirs pre key val items post p e x,
    mem key (opt_exclude_ext_pillar (opts self)) = true ->
    ext_pillar_runs c self dirs (pre ++ VDict ((key, val) :: items) :: post) p e x
    = ext_pillar_runs c self dirs (pre ++ post) p e x.
Proof.
  intros c self dirs pre key val items post p e x Hex. revert p e x.
  induction pre as [|run rest IH]; simpl; intros p e x.
  - now rewrite Hex.
  - destruct run as [| | | | |d]; try reflexivity.
    destruct d as [|[key0 val0] items0]; [reflexivity|].
    destruct (mem key0 (opt_exclude_ext_pillar (opts self))); [apply IH|].
    destruct (fold_left _ _ _) as [errors' ext'].
    destruct (truthy ext'); [|apply IH].
    destruct (merge c p ext'); simpl; [apply IH | reflexivity].
Qed.

Lemma excluded_entry_is_skipped_witness :
  ext_pillar_runs Sample.sources_collab Sample2.excluding_self VNone
    ([] ++ VDict [("s2", VDict []); ("s1", VDict [])]
        :: [VDict [("s1", VDict [])]])
    (VDict []) [] VNone
  = ext_pillar_runs Sample.sources_collab Sample2.excluding_self VNone
      ([] ++ [VDict [("s1", VDict [])]]) (VDict []) [] VNone.
Proof.
  apply (excluded_entry_is_skipped Sample.sources_collab Sample2.excluding_self
           VNone [] "s2" (VDict []) [("s1", VDict [])]
           [VDict [("s1", VDict [])]] (VDict []) [] VNone eq_refl).
Defined.

Lemma ext_pillar_runs_empty_mapping c self dirs pre post :
  forallb is_dict pre = true ->
  forall p e x p' e',
    ext_pillar_runs c self dirs pre p e x = Ok (p', e') ->
    ext_pillar_runs c self dirs (pre ++ VDict [] :: post) p e x
    = Raise (Exn StopIteration EmptyString).
Proof.
  intros Hpre. induction pre as [|run rest IH]; simpl; intros p e x p' e' H; auto.
  simpl in Hpre. apply andb_prop in Hpre as [Hrun Hrest].
  destruct run as [| | | | |d]; try discriminate.
  destruct d as [|[key0 val0] items]; [discriminate|].
  destruct (mem key0 (opt_exclude_ext_pillar (opts self))); [eapply IH; eauto|].
  destruct (fold_left _ _ _) as [errors' ext'].
  destruct (truthy ext'); [|eapply IH; eauto].
  destruct (merge c p ext'); simpl in *; [eapply IH; eauto | discriminate].
Qed.

(** X12: an entry that is an empty mapping makes [ext_pillar] raise
    [StopIteration] (from [next] on its keys): no tree and no errors are
    returned. *)
Theorem empty_mapping_entry_raises :
  forall c self pillar dirs errors pre post p0 p' e',
    git_prefetch c self = Ok tt ->
    opt_ext_pillar (opts self) = Some (VList (pre ++ VDict [] :: post)) ->
    forallb is_dict pre = true ->
    (if truthy (pillar_override self)
     then merge c pillar (pillar_override self) else Ok pillar) = Ok p0 ->
    ext_pillar_runs c self dirs pre p0 errors VNone = Ok (p', e') ->
    ext_pillar c self pillar dirs errors = Raise (Exn StopIteration EmptyString).
Proof.
  intros * Hgit Hcfg Hpre Hover Hruns.
  unfold ext_pillar. rewrite Hgit, Hcfg, Hover. simpl.
  eapply ext_pillar_runs_empty_mapping; eauto.
Qed.

Lemma empty_mapping_entry_raises_witness :
  ext_pillar Sample.sources_collab
    (Sample.sources_self (VList [VDict [("s1", VDict [])]; VDict []]))
    (VDict []) VNone []
  = Raise (Exn StopIteration EmptyString).
Proof.
  apply (empty_mapping_entry_raises Sample.sources_collab
           (Sample.sources_self (VList [VDict [("s1", VDict [])]; VDict []]))
           (VDict []) VNone [] [VDict [("s1", VDict [])]] [] (VDict [])
           (Sample.k_is 1) [] eq_refl eq_refl eq_refl eq_refl eq_refl).
Defined.

(** X13: in an entry with two keys both sources are called with the same
    pillar, and when both succeed only the result of the second is merged:
    the contribution of the first is lost. *)
Theorem two_key_entry_keeps_last_result :
  forall c self dirs key1 val1 key2 val2 rest p e x source1 source2 ext1 ext2,
    mem key1 (opt_exclude_ext_pillar (opts self)) = false ->
    ext_pillars c key1 = Some source1 ->
    source1 (external_pillar_call self p val1 dirs key1) = Ok ext1 ->
    ext_pillars c key2 = Some source2 ->
    source2 (external_pillar_call self p val2 dirs key2) = Ok ext2 ->
    truthy ext2 = true ->
    ext_pillar_runs c self dirs (VDict [(key1, val1); (key2, val2)] :: rest) p e x
    = (p' <- merge c p ext2 ;; ext_pillar_runs c self dirs rest p' e VNone).
Proof.
  intros * Hex H1 Hs1 H2 Hs2 Ht.
  cbn [ext_pillar_runs fold_left dispatch_item]. rewrite Hex.
  unfold _external_pillar_data. rewrite H1, Hs1.
  cbn [dispatch_item]. rewrite H2. unfold _external_pillar_data.
  rewrite H2, Hs2, Ht. reflexivity.
Qed.

Lemma two_key_entry_keeps_last_result_witness :
  ext_pillar_runs Sample.sources_collab (Sample.sources_self (VList []))
    VNone
    [VDict [("s1", VDict []); ("git", Sample.git_remotes)]]
    (VDict []) [] VNone
  = Ok (VDict [("seen", VList [VStr "web1"; Sample.git_remotes; VNone])], []).
Proof.
  rewrite (two_key_entry_keeps_last_result Sample.sources_collab
             (Sample.sources_self (VList [])) VNone
             "s1" (VDict []) "git" Sample.git_remotes [] (VDict []) [] VNone
             (fun _ => Ok (Sample.k_is 1))
             (fun call => Ok (VDict [("seen", VList (call_args call))]))
             (Sample.k_is 1)
             (VDict [("seen", VList [VStr "web1"; Sample.git_remotes; VNone])])
             eq_refl eq_refl eq_refl eq_refl eq_refl eq_refl).
  reflexivity.
Defined.

(** ** [compile_pillar]: the default order and the assembly *)

(** X14: in the default order (no [ext_pillar_first]) the external
    sources are applied to the rendered tree: with one configured source
    that succeeds, the source stage yields [merge(rendered, contribution)],
    and every key that the source maps to a scalar has the source's value
    in it. *)
Theorem ext_last_source_wins :
  forall fuel c self0 dirs self top top_errors rendered errors
         key val source contribution final,
    later_wins (merge c) ->
    get_top c self0 = Ok (self, top, top_errors) ->
    opt_ext_pillar_first (opts self) = false ->
    render_pillar fuel c self (top_matches c self top) []
    = Some (Ok (rendered, errors)) ->
    git_prefetch c self = Ok tt ->
    opt_ext_pillar (opts self) = Some (VList [VDict [(key, val)]]) ->
    truthy (pillar_override self) = false ->
    mem key (opt_exclude_ext_pillar (opts self)) = false ->
    ext_pillars c key = Some source ->
    source (external_pillar_call self rendered val dirs key) = Ok contribution ->
    truthy contribution = true ->
    wf_value contribution = true ->
    merge c rendered contribution = Ok final ->
    compile_sources fuel c self0 true dirs
    = Some (Ok (self, final, errors, top_errors)) /\
    (forall k v,
        traverse_parts contribution [k] = Some v -> hashable v = true ->
        traverse_parts final [k] = Some v).
Proof.
  intros * Hlaw Htop Hlast Hrender Hgit Hcfg Hover Hex Hreg Hsrc Ht Hwf Hmerge.
  split.
  - unfold compile_sources. rewrite Htop. cbn [fbind].
    rewrite Hlast, Hrender. cbn [fbind].
    unfold ext_pillar. rewrite Hgit, Hcfg, Hover.
    cbn [bind ext_pillar_runs fold_left dispatch_item]. rewrite Hex, Hreg.
    unfold _external_pillar_data. rewrite Hreg, Hsrc, Ht, Hmerge. reflexivity.
  - intros k v Hk Hv. exact (Hlaw _ _ _ _ _ Hmerge Hwf Hk Hv).
Qed.

Lemma ext_last_source_wins_witness :
  compile_sources 2 Sample.ext_first_collab
    (Sample.sample_self
       (Sample.sample_opts ["base"] (Some (VList [VDict [("s1", VDict [])]]))
          false None)
       ["foo"])
    true VNone
  = Some (Ok (Sample.sample_self
                (Sample.sample_opts ["base"]
                   (Some (VList [VDict [("s1", VDict [])]])) false None)
                ["foo"],
              Sample.k_is 1, [], [])) /\
  (forall k v,
      traverse_parts (Sample.k_is 1) [k] = Some v -> hashable v = true ->
      traverse_parts (Sample.k_is 1) [k] = Some v).
Proof.
  apply (ext_last_source_wins 2 Sample.ext_first_collab
           (Sample.sample_self
              (Sample.sample_opts ["base"]
                 (Some (VList [VDict [("s1", VDict [])]])) false None)
              ["foo"])
           VNone
           (Sample.sample_self
              (Sample.sample_opts ["base"]
                 (Some (VList [VDict [("s1", VDict [])]])) false None)
              ["foo"])
           [("base", [("*", [VStr "foo"])])] [] (Sample.k_is 3) []
           "s1" (VDict []) (fun _ => Ok (Sample.k_is 1)) (Sample.k_is 1)
           (Sample.k_is 1)
           merge_recurse_later_wins eq_refl eq_refl eq_refl eq_refl eq_refl
           eq_refl eq_refl eq_refl eq_refl eq_refl eq_refl eq_refl).
Defined.

(** X15: the override wins over everything: without a decryption pass,
    the tree that the assembly returns holds, for every key that a truthy
    [pillar_override] maps to a scalar, the value of the override, the
    reserved keys [master] and [_errors] included. *)
Theorem override_wins_in_the_result :
  forall c self pillar errors top_errors final,
    later_wins (merge c) ->
    opt_decrypt_pillar (opts self) = None ->
    truthy (pillar_override self) = true ->
    wf_value (pillar_override self) = true ->
    assemble c self pillar errors top_errors = Ok final ->
    forall k v,
      traverse_parts (pillar_override self) [k] = Some v -> hashable v = true ->
      traverse_parts final [k] = Some v.
Proof.
  intros * Hlaw Hdec Hover Hwf H k v Hk Hv. unfold assemble in H.
  apply bind_ok in H as (p1 & _ & H). apply bind_ok in H as (p2 & _ & H).
  rewrite Hover in H. apply bind_ok in H as (p3 & Hmerge & H).
  unfold decrypt_pillar in H. rewrite Hdec in H. simpl in H.
  inversion H. subst. exact (Hlaw _ _ _ _ _ Hmerge Hwf Hk Hv).
Qed.

Lemma override_wins_in_the_result_witness :
  traverse_parts
    (VDict [("k", VInt 1); ("_errors", VStr "none")]) ["_errors"]
  = Some (VStr "none").
Proof.
  apply (override_wins_in_the_result Sample.key_collab
           {| opts := opts Sample.plain_self;
              minion_id := "web1"; ext := VNone; saltenv := None;
              avail := []; rend := rend Sample.plain_self;
              ignored_pillars := [];
              pillar_override := VDict [("_errors", VStr "none")] |}
           (Sample.k_is 1) ["render failed"] []
           (VDict [("k", VInt 1); ("_errors", VStr "none")])
           merge_recurse_later_wins eq_refl eq_refl eq_refl eq_refl
           "_errors" (VStr "none") eq_refl eq_refl).
Defined.

(** X16: failures of the stages are attached, not raised: without
    options snapshot, override and decryption pass, the assembly returns
    the tree with the errors of the source stage followed by the top-file
    errors under [_errors], and the tree itself when there is no error. *)
Theorem errors_are_attached_in_stage_order :
  forall c self d errors top_errors,
    opt_pillar_opts (opts self) = false ->
    truthy (pillar_override self) = false ->
    opt_decrypt_pillar (opts self) = None ->
    assemble c self (VDict d) errors top_errors
    = Ok match errors ++ top_errors with
         | [] => VDict d
         | all => VDict (dict_set "_errors" (VList (map VStr all)) d)
         end.
Proof.
  intros * Hopts Hover Hdec. unfold assemble, decrypt_pillar.
  rewrite Hopts, Hover, Hdec. simpl.
  destruct (errors ++ top_errors); reflexivity.
Qed.

Lemma errors_are_attached_in_stage_order_witness :
  assemble Sample.key_collab Sample.plain_self (VDict [("k", VInt 1)])
    ["render failed"] ["top failed"]
  = Ok (VDict [("k", VInt 1);
               ("_errors", VList [VStr "render failed"; VStr "top failed"])]).
Proof.
  apply (errors_are_attached_in_stage_order Sample.key_collab Sample.plain_self
           [("k", VInt 1)] ["render failed"] ["top failed"]
           eq_refl eq_refl eq_refl).
Defined.

(** ** [decrypt_pillar]: replacement and failures *)

Lemma traverse_parts_app data p1 p2 :
  traverse_parts data (p1 ++ p2)
  = match traverse_parts data p1 with
    | Some v => traverse_parts v p2
    | None => None
    end.
Proof.
  revert data. induction p1 as [|k p1 IH]; intros data; simpl; auto.
  destruct data; auto. destruct (dict_get k d); auto.
Qed.

Lemma update_at_traverse parts f :
  forall data old new,
    traverse_parts data parts = Some old -> f old = Ok new ->
    exists data',
      update_at parts f data = Ok data' /\
      traverse_parts data' parts = Some new.
Proof.
  induction parts as [|k parts IH]; simpl; intros data old new Hold Hf.
  - inversion Hold. subst. eauto.
  - destruct data as [| | | | |d]; try discriminate.
    destruct (dict_get k d) as [v|] eqn:Hk; [|discriminate].
    destruct (IH _ _ _ Hold Hf) as (v' & Hup & Hnew).
    rewrite Hup. simpl. eexists. split; [reflexivity|].
    simpl. now rewrite dict_get_set_same.
Qed.

(** X17: a scalar that the decrypt collaborator is handed is replaced in
    its parent by the value the collaborator returns, and no error is
    added: after the entry the returned value is found at the path the
    scalar was read from.  The parent is the one that [rpartition] names,
    which is the one that [split] walks through. *)
Theorem decrypted_scalar_is_found_at_its_path :
  forall c self pillar errors key rend_ parts ptr ret parent child pparts,
    py_split (opt_decrypt_pillar_delimiter (opts self)) key = Ok parts ->
    traverse_parts pillar parts = Some ptr ->
    is_none ptr = false ->
    hashable ptr = true ->
    decrypt c ptr
      (if truthy rend_ then rend_ else opt_decrypt_pillar_default (opts self))
    = Ok ret ->
    py_rpartition (opt_decrypt_pillar_delimiter (opts self)) key
    = Ok (parent, child) ->
    parts = pparts ++ [child] ->
    (if String.eqb parent EmptyString then pparts = []
     else py_split (opt_decrypt_pillar_delimiter (opts self)) parent
          = Ok pparts) ->
    exists pillar',
      decrypt_entry c self (pillar, errors) (key, rend_) = Ok (pillar', errors) /\
      traverse_parts pillar' parts = Some ret.
Proof.
  intros c self pillar errors key rend_ parts ptr ret parent child pparts
    Hsplit Hptr Hnone Hh Hdec Hrp Hparts Hpp.
  unfold decrypt_entry, traverse_dict. rewrite Hsplit. cbn [bind].
  rewrite Hptr, Hnone. unfold decrypt_at. rewrite Hdec. cbn [bind].
  rewrite Hh, Hrp. cbn [bind]. subst parts.
  rewrite traverse_parts_app in Hptr.
  destruct (traverse_parts pillar pparts) as [pv|] eqn:Hpv; [|discriminate].
  simpl in Hptr. destruct pv as [| | | | |dd]; try discriminate.
  destruct (dict_get child dd) eqn:Hchild; [|discriminate].
  destruct (String.eqb parent EmptyString).
  - subst pparts. simpl in Hpv. inversion Hpv. subst pillar.
    simpl. eexists. split; [reflexivity|].
    simpl. now rewrite dict_get_set_same.
  - rewrite Hpp. cbn [bind]. rewrite Hpv.
    destruct (update_at_traverse pparts (py_setitem child ret) pillar
                (VDict dd) (VDict (dict_set child ret dd)) Hpv eq_refl)
      as (pillar' & Hup & Hnew).
    rewrite Hup. eexists. split; [reflexivity|].
    rewrite traverse_parts_app, Hnew. simpl. now rewrite dict_get_set_same.
Qed.

Lemma decrypted_scalar_is_found_at_its_path_witness :
  exists pillar',
    decrypt_entry Sample2.decrypt_collab Sample.decrypt_self
      (Sample2.secrets, []) ("db:password", VNone) = Ok (pillar', []) /\
    traverse_parts pillar' ["db"; "password"] = Some (VStr "plain").
Proof.
  apply (decrypted_scalar_is_found_at_its_path Sample2.decrypt_collab
           Sample.decrypt_self Sample2.secrets [] "db:password" VNone
           ["db"; "password"] (VStr "cipher") (VStr "plain")
           "db" "password" ["db"]
           eq_refl eq_refl eq_refl eq_refl eq_refl eq_refl eq_refl eq_refl).
Defined.



(** ** [PillarCache] *)

(** X19: after a compile through the cache, a second compile for the
    same minion and environment returns the same tree, leaves the cache as
    it is and does not run the compiler: its outcome does not depend on
    what a fetch would give. *)
Theorem second_compile_hits_the_cache :
  forall fetch minion env cache tree cache',
    PillarCache.compile_pillar fetch minion env cache = Some (Ok (tree, cache')) ->
    forall fetch',
      PillarCache.compile_pillar fetch' minion env cache' = Some (Ok (tree, cache')).
Proof.
  intros * H fetch'. unfold PillarCache.compile_pillar in *.
  destruct (dict_get minion cache) as [envs|] eqn:Hm.
  - destruct (dict_get (PillarCache.saltenv_of env) envs) as [pillar|] eqn:He.
    + inversion H. subst. now rewrite Hm, He.
    + apply fbind_ok in H as (fresh & _ & H). inversion H. subst.
      now rewrite dict_get_set_same, dict_get_set_same.
  - apply fbind_ok in H as (fresh & _ & H). inversion H. subst.
    rewrite dict_get_set_same. simpl. now rewrite String.eqb_refl.
Qed.

Lemma second_compile_hits_the_cache_witness :
  PillarCache.compile_pillar (Some (Raise (Exn OtherException "unused")))
    "web1" None [("web1", [("base", Sample.k_is 3)])]
  = Some (Ok (Sample.k_is 3, [("web1", [("base", Sample.k_is 3)])])).
Proof.
  apply (second_compile_hits_the_cache
           (PillarCache.fetch_pillar 3 Sample.ext_first_collab
              Sample.ext_first_self)
           "web1" None [] (Sample.k_is 3)
           [("web1", [("base", Sample.k_is 3)])] eq_refl
           (Some (Raise (Exn OtherException "unused")))).
Defined.

(** X20: a compile through the cache changes the entry of its own minion
    and environment at most: every other entry of the cache is as it
    was. *)
Theorem compile_keeps_other_cache_entries :
  forall fetch minion env cache tree cache' minion' env',
    PillarCache.compile_pillar fetch minion env cache = Some (Ok (tree, cache')) ->
    String.eqb minion' minion && String.eqb env' (PillarCache.saltenv_of env)
    = false ->
    dict_get2 minion' env' cache' = dict_get2 minion' env' cache.
Proof.
  intros * H Hne. unfold PillarCache.compile_pillar in H.
  destruct (dict_get minion cache) as [envs|] eqn:Hm.
  - destruct (dict_get (PillarCache.saltenv_of env) envs) as [pillar|] eqn:He.
    + now inversion H.
    + apply fbind_ok in H as (fresh & _ & H). inversion H. subst.
      rewrite <- (dict_get2_set2_other minion' env' minion
                    (PillarCache.saltenv_of env) tree cache Hne).
      unfold dict_set2. now rewrite Hm.
  - apply fbind_ok in H as (fresh & _ & H). inversion H. subst.
    unfold dict_get2.
    destruct (String.eqb minion' minion) eqn:E.
    + apply String.eqb_eq in E. subst minion'.
      rewrite dict_get_set_same, Hm. simpl in *. now rewrite Hne.
    + apply String.eqb_neq in E. now rewrite dict_get_set_other.
Qed.

Lemma compile_keeps_other_cache_entries_witness :
  dict_get2 "db1" "base"
    [("db1", [("base", Sample.k_is 1)]); ("web1", [("base", Sample.k_is 3)])]
  = dict_get2 "db1" "base" [("db1", [("base", Sample.k_is 1)])].
Proof.
  apply (compile_keeps_other_cache_entries
           (PillarCache.fetch_pillar 3 Sample.ext_first_collab
              Sample.ext_first_self)
           "web1" None [("db1", [("base", Sample.k_is 1)])] (Sample.k_is 3)
           [("db1", [("base", Sample.k_is 1)]);
            ("web1", [("base", Sample.k_is 3)])]
           "db1" "base" eq_refl eq_refl).
Defined.

(** ** On-demand external pillar data *)

Lemma all_allowed_rejects keys on_demand k :
  In k keys -> py_in k on_demand = Ok false ->
  all_allowed keys on_demand <> Ok true.
Proof.
  induction keys as [|x rest IH]; simpl; [tauto|].
  intros [Hx|Hin] Hk.
  - subst x. rewrite Hk. simpl.
    destruct (all_allowed rest on_demand); simpl; discriminate.
  - destruct (py_in x on_demand) as [b|]; simpl; [|discriminate].
    destruct (all_allowed rest on_demand) as [b'|] eqn:E; simpl; [|discriminate].
    intros H. inversion H. apply andb_prop in H1 as [_ Hb']. subst b'.
    now apply (IH Hin Hk).
Qed.

Lemma all_allowed_total keys on_demand k b :
  py_in k on_demand = Ok b ->
  exists b', all_allowed keys on_demand = Ok b'.
Proof.
  intros Hk.
  assert (Hall : forall x, exists bx, py_in x on_demand = Ok bx).
  { intros x. destruct on_demand; simpl in *; try discriminate; eauto. }
  induction keys as [|x rest IH]; simpl; [eauto|].
  destruct (Hall x) as (bx & Hx). destruct IH as (b' & Hrest).
  rewrite Hx, Hrest. simpl. eauto.
Qed.

(** X21: an on-demand request that names one source outside the
    allow-list is never applied.  When every member of the allow-list is a
    string the configured [ext_pillar] option is left as it is; otherwise
    the log line of the rejection cannot be joined and the [TypeError]
    leaves [__gen_opts]. *)
Theorem disallowed_on_demand_is_never_applied :
  forall d on_demand ext_pillar_cfg k,
    In k (dict_keys d) ->
    py_in k on_demand = Ok false ->
    gen_opts_ext_pillar (VDict d) on_demand ext_pillar_cfg
    = if joinable on_demand then Ok ext_pillar_cfg
      else Raise (Exn TypeError "sequence item: expected string").
Proof.
  intros d on_demand ext_pillar_cfg k Hin Hk.
  unfold gen_opts_ext_pillar, valid_on_demand_ext_pillar.
  assert (Ht : truthy (VDict d) = true).
  { destruct d; [contradiction|reflexivity]. }
  rewrite Ht.
  assert (H := all_allowed_rejects _ _ _ Hin Hk).
  destruct (all_allowed_total (dict_keys d) _ _ _ Hk) as (b' & Hb').
  rewrite Hb' in *. destruct b'; [congruence|].
  destruct (joinable on_demand); reflexivity.
Qed.

Lemma disallowed_on_demand_is_never_applied_witness :
  gen_opts_ext_pillar
    (VDict [("git", Sample.git_remotes); ("cmd_yaml", VStr "cat /etc/shadow")])
    (VList [VStr "git"]) (Some (VList [VDict [("s1", VDict [])]]))
  = Ok (Some (VList [VDict [("s1", VDict [])]])) /\
  gen_opts_ext_pillar
    (VDict [("git", Sample.git_remotes)])
    (VList [VInt 1]) (Some (VList [VDict [("s1", VDict [])]]))
  = Raise (Exn TypeError "sequence item: expected string").
Proof.
  split.
  - apply (disallowed_on_demand_is_never_applied
             [("git", Sample.git_remotes); ("cmd_yaml", VStr "cat /etc/shadow")]
             (VList [VStr "git"]) (Some (VList [VDict [("s1", VDict [])]]))
             "cmd_yaml").
    + simpl. auto.
    + reflexivity.
  - apply (disallowed_on_demand_is_never_applied
             [("git", Sample.git_remotes)]
             (VList [VInt 1]) (Some (VList [VDict [("s1", VDict [])]]))
             "git").
    + simpl. auto.
    + reflexivity.
Defined.

(** X22: an allowed on-demand request for one source is appended after
    the configured entries, so [ext_pillar] dispatches it last, with the
    pillar that the configured sources have built. *)
Theorem allowed_on_demand_runs_last :
  forall c self dirs key val on_demand entries pillar errors,
    py_in key on_demand = Ok true ->
    gen_opts_ext_pillar (single_key (key, val)) on_demand
      (Some (VList (map single_key entries)))
    = Ok (Some (VList (map single_key (entries ++ [(key, val)])))) /\
    ext_pillar_runs c self dirs (map single_key (entries ++ [(key, val)]))
      pillar errors VNone
    = (st <- spec_aggregate c self dirs entries (pillar, errors) ;;
       spec_source_step c self dirs st (key, val)).
Proof.
  intros * Hk. split.
  - unfold gen_opts_ext_pillar, valid_on_demand_ext_pillar, single_key.
    cbn [truthy dict_keys map fst all_allowed]. rewrite Hk.
    cbn [bind andb]. now rewrite map_app.
  - rewrite ext_pillar_runs_spec by reflexivity.
    generalize (pillar, errors).
    induction entries as [|entry rest IH]; intros st; simpl.
    + destruct (spec_source_step c self dirs st (key, val)); reflexivity.
    + destruct (spec_source_step c self dirs st entry); simpl; auto.
Qed.

Lemma allowed_on_demand_runs_last_witness :
  gen_opts_ext_pillar (single_key ("git", Sample.git_remotes))
    (VList [VStr "git"]) (Some (VList (map single_key [("s1", VDict [])])))
  = Ok (Some (VList (map single_key
                       ([("s1", VDict [])] ++ [("git", Sample.git_remotes)])))) /\
  ext_pillar_runs Sample.sources_collab (Sample.sources_self (VList [])) VNone
    (map single_key ([("s1", VDict [])] ++ [("git", Sample.git_remotes)]))
    (VDict []) [] VNone
  = (st <- spec_aggregate Sample.sources_collab (Sample.sources_self (VList []))
             VNone [("s1", VDict [])] (VDict [], []) ;;
     spec_source_step Sample.sources_collab (Sample.sources_self (VList []))
       VNone st ("git", Sample.git_remotes)).
Proof.
  apply (allowed_on_demand_runs_last Sample.sources_collab
           (Sample.sources_self (VList [])) VNone "git" Sample.git_remotes
           (VList [VStr "git"]) [("s1", VDict [])] (VDict []) [] eq_refl).
Defined.

(** ** The remote clients *)

(** X23: both remote clients return mappings only.  The suspending
    client raises nothing but [SaltClientError]; the blocking client
    raises exactly what the transport raises. *)
Theorem remote_clients_return_mappings :
  forall c self,
    match AsyncRemotePillar.compile_pillar c self with
    | Ok tree => is_dict tree = true
    | Raise e => exn_kind e = SaltClientError
    end /\
    match RemotePillar.compile_pillar c self with
    | Ok tree => is_dict tree = true
    | Raise e =>
        crypted_transfer_decode_dictentry c (remote_load self) "pillar" = Raise e
    end.
Proof.
  intros c self.
  unfold AsyncRemotePillar.compile_pillar, RemotePillar.compile_pillar.
  destruct (crypted_transfer_decode_dictentry c (remote_load self) "pillar")
    as [ret|e]; simpl; [|auto].
  destruct (is_dict ret) eqn:E; auto.
Qed.

(** ** The key of an include and the paths of the decryption pass *)

(** X24: the tree that an include key builds holds the included tree at
    the path of the key fragments. *)
Theorem wrapped_tree_is_found_at_its_key :
  forall parts nstate, traverse_parts (wrap_key parts nstate) parts = Some nstate.
Proof.
  induction parts as [|k parts IH]; intros nstate; simpl; auto.
  rewrite String.eqb_refl. apply IH.
Qed.

(** ** [get_tops] *)

(** X25: a [pillarenv] that is not among the pillar roots is passed over
    in silence: no top file is fetched or rendered, there are no tops and
    no errors. *)
Theorem unknown_pillarenv_yields_nothing :
  forall c self penv,
    opt_pillarenv (opts self) = Some penv ->
    String.eqb penv EmptyString = false ->
    dict_has penv (opt_file_roots (opts self)) = false ->
    get_tops c self = ([], []).
Proof.
  intros * Hpenv Hne Hroots. unfold get_tops, primary_tops, str_truthy.
  now rewrite Hpenv, Hne, Hroots.
Qed.

Lemma unknown_pillarenv_yields_nothing_witness :
  get_tops Sample.base_fails_collab
    {| opts :=
         {| opt_pillarenv := Some "qa";
            opt_file_roots := Sample.roots ["base"; "dev"];
            opt_pillar_roots := Sample.roots ["base"; "dev"];
            opt_state_top := "salt://top.sls";
            opt_pillar_source_merging_strategy := None;
            opt_pillar := None;
            opt_ext_pillar := None;
            opt_exclude_ext_pillar := [];
            opt_ext_pillar_first := false;
            opt_pillar_opts := false;
            opt_pillar_safe_render_error := true;
            opt_git_pillar := false;
            opt_role := None;
            opt_decrypt_pillar := None;
            opt_decrypt_pillar_delimiter := ":";
            opt_decrypt_pillar_default := VStr "gpg" |};
       minion_id := "web1"; ext := VNone; saltenv := None; avail := [];
       rend := NotRenderers VNone; ignored_pillars := [];
       pillar_override := VDict [] |}
  = ([], []).
Proof.
  apply (unknown_pillarenv_yields_nothing Sample.base_fails_collab _ "qa");
    reflexivity.
Defined.

Lemma dict_touch_has {V : Type} k (d : list (string * list V)) :
  dict_has k d = true -> dict_touch k d = d.
Proof. unfold dict_touch. now intros ->. Qed.

Lemma dict_append_get {V : Type} k (x : V) d :
  exists l, dict_get k (dict_append k x d) = Some (l ++ [x]).
Proof.
  unfold dict_append. destruct (dict_get k d) as [l|] eqn:E.
  - exists l. apply dict_get_set_same.
  - exists []. rewrite dict_get_app, E. simpl. now rewrite String.eqb_refl.
Qed.

(** X26: an included top file is rendered once in a pass: handling the
    same include again changes neither the fragments nor the errors. *)
Theorem include_is_rendered_once :
  forall c self env sls st,
    include_one c self env sls (include_one c self env sls st)
    = include_one c self env sls st.
Proof.
  intros c self env sls [[tops errors] done].
  unfold include_one.
  destruct (match dict_get env done with
            | Some l => mem sls l
            | None => false
            end) eqn:Hdone.
  - destruct (dict_get env done) as [l|] eqn:E; [|discriminate].
    assert (Hhas : dict_has env done = true) by (unfold dict_has; now rewrite E).
    rewrite !(dict_touch_has _ _ Hhas). now rewrite E, Hdone.
  - destruct (dict_append_get env sls done) as (l & Hl).
    assert (Hhas : dict_has env (dict_append env sls done) = true)
      by (unfold dict_has; now rewrite Hl).
    destruct (compile_top c (get_state c sls env) (rend self) env);
      rewrite Hl, mem_app_last, (dict_touch_has _ _ Hhas); reflexivity.
Qed.

(** X27: an included top file that fails to render adds one error that
    names the file, and the includes after it are still rendered. *)
Theorem failed_include_does_not_stop_the_others :
  forall c self env sls rest tops errors done e,
    match dict_get env done with Some l => mem sls l | None => false end = false ->
    compile_top c (get_state c sls env) (rend self) env = Raise e ->
    include_pass c self [(env, sls :: rest)] (tops, errors, done)
    = include_pass c self [(env, rest)]
        (dict_touch env tops, errors ++ [include_error sls e],
         dict_append env sls done).
Proof.
  intros * Hdone Hraise. unfold include_pass. cbn [fold_left].
  unfold include_one at 2. now rewrite Hdone, Hraise.
Qed.

Lemma failed_include_does_not_stop_the_others_witness :
  include_pass Sample.base_fails_collab Sample.two_env_self
    [("base", ["roles"; "users"])] ([("base", [])], [], [])
  = include_pass Sample.base_fails_collab Sample.two_env_self
      [("base", ["users"])]
      (dict_touch "base" [("base", [])],
       [] ++ [include_error "roles"
                (Exn OtherException "found character that cannot start any token")],
       dict_append "base" "roles" []).
Proof.
  apply (failed_include_does_not_stop_the_others Sample.base_fails_collab
           Sample.two_env_self "base" "roles" ["users"] [("base", [])] [] []
           (Exn OtherException "found character that cannot start any token")
           eq_refl eq_refl).
Defined.

Lemma dict_append_keys {V : Type} (P : string -> Prop) k (x : V) d :
  P k -> Forall (fun et => P (fst et)) d ->
  Forall (fun et => P (fst et)) (dict_append k x d).
Proof.
  intros Hk Hd. unfold dict_append. destruct (dict_get k d).
  - now apply dict_set_forall_key.
  - apply Forall_app. split; auto.
Qed.

Lemma dict_touch_keys {V : Type} (P : string -> Prop) k
  (d : list (string * list V)) :
  P k -> Forall (fun et => P (fst et)) d ->
  Forall (fun et => P (fst et)) (dict_touch k d).
Proof.
  intros Hk Hd. unfold dict_touch. destruct (dict_has k d); auto.
  apply Forall_app. split; auto.
Qed.

Lemma gather_tops_keys c self envs :
  forall tops,
    Forall (fun et => skip_env self (fst et) = false) tops ->
    Forall (fun et => skip_env self (fst et) = false)
      (fst (gather_tops c self envs tops)).
Proof.
  induction envs as [|env rest IH]; simpl; intros tops Ht; auto.
  destruct (skip_env self env) eqn:Hskip; auto.
  destruct (cache_file c (opt_state_top (opts self)) env); auto.
  destruct (compile_top c (Some s) (rend self) env); simpl.
  - apply IH.
    now apply (dict_append_keys (fun k => skip_env self k = false)).
  - now apply (dict_touch_keys (fun k => skip_env self k = false)).
Qed.

Lemma collect_includes_keys (P : string -> Prop) env ctops :
  P env ->
  forall include,
    Forall (fun et => P (fst et)) include ->
    Forall (fun et => P (fst et)) (collect_includes env ctops include).
Proof.
  intros Henv. unfold collect_includes.
  induction ctops as [|ctop rest IH]; simpl; intros include Hi; auto.
  apply IH. destruct (top_include ctop) as [l|]; auto.
  revert include Hi. induction l as [|sls l IHl]; simpl; intros include Hi; auto.
  apply IHl. now apply dict_append_keys.
Qed.

Lemma search_includes_keys (P : string -> Prop) tops :
  Forall (fun et => P (fst et)) tops ->
  Forall (fun et => P (fst et)) (fst (search_includes tops)) /\
  Forall (fun et => P (fst et)) (snd (search_includes tops)).
Proof.
  intros Ht. unfold search_includes. simpl. split.
  - induction Ht as [|[env ctops] rest Hx Hrest IH]; simpl; constructor; auto.
  - assert (Hgen : forall include : list (string * list string),
               Forall (fun et => P (fst et)) include ->
               Forall (fun et => P (fst et))
                 (fold_left (fun inc '(env, ctops) =>
                               collect_includes env ctops inc) tops include)).
    { induction Ht as [|[env ctops] rest Hx Hrest IH]; simpl; intros inc Hi; auto.
      apply IH. now apply collect_includes_keys. }
    apply Hgen. constructor.
Qed.

Lemma include_states_keys c self (P : string -> Prop) env states :
  P env ->
  forall st,
    Forall (fun et => P (fst et)) (fst (fst st)) ->
    Forall (fun et => P (fst et))
      (fst (fst (fold_left (fun st'' sls => include_one c self env sls st'')
                   states st))).
Proof.
  intros Henv. induction states as [|sls states IHs]; simpl; intros st Hst; auto.
  apply IHs. destruct st as [[t e] d]. unfold include_one. simpl in *.
  destruct (match dict_get env d with
            | Some l => mem sls l
            | None => false
            end); auto.
  destruct (compile_top c (get_state c sls env) (rend self) env); simpl.
  - now apply dict_append_keys.
  - now apply dict_touch_keys.
Qed.

Lemma include_pass_keys c self (P : string -> Prop) include :
  Forall (fun et => P (fst et)) include ->
  forall tops errors done,
    Forall (fun et => P (fst et)) tops ->
    Forall (fun et => P (fst et))
      (fst (fst (include_pass c self include (tops, errors, done)))).
Proof.
  unfold include_pass.
  induction 1 as [|[env states] rest Henv Hrest IH]; simpl;
    intros tops errors done Ht; auto.
  simpl in Henv.
  assert (Hstates := include_states_keys c self P env states Henv
                       (tops, errors, done) Ht).
  destruct (fold_left _ states _) as [[t1 e1] d1]. now apply IH.
Qed.

(** X28: without a [pillarenv], every environment that [get_tops]
    returns fragments for has passed the source-merging filter; under the
    strategy [none] this is the environment of the minion alone, or [base]
    when the minion has none. *)
Theorem none_strategy_scans_one_environment :
  forall c self env fragments,
    str_truthy (opt_pillarenv (opts self)) = false ->
    dict_get env (fst (get_tops c self)) = Some fragments ->
    skip_env self env = false /\
    (opt_str_eqb (opt_pillar_source_merging_strategy (opts self)) "none" = true ->
     if str_truthy (saltenv self) then saltenv self = Some env
     else env = "base").
Proof.
  intros * Hpenv Hget.
  assert (Hskip : skip_env self env = false).
  { assert (Hall : Forall (fun et => skip_env self (fst et) = false)
                     (fst (get_tops c self))).
    { unfold get_tops, primary_tops. rewrite Hpenv.
      assert (Hg := gather_tops_keys c self (_get_envs self) [] (Forall_nil _)).
      destruct (gather_tops c self (_get_envs self) []) as [tops0 exc].
      simpl in Hg.
      destruct (search_includes_keys (fun k => skip_env self k = false) _ Hg)
        as [Ht Hi].
      destruct (search_includes tops0) as [tops1 include]. simpl in Ht, Hi.
      assert (Hp := include_pass_keys c self
                      (fun k => skip_env self k = false) include Hi tops1
                      match exc with
                      | Some e => [primary_error e]
                      | None => []
                      end [] Ht).
      destruct (include_pass c self include _) as [[tops2 errors'] done].
      exact Hp. }
    apply dict_get_in in Hget.
    apply (proj1 (Forall_forall _ _) Hall (env, fragments) Hget). }
  split; [exact Hskip|].
  intros Hnone. unfold skip_env in Hskip. rewrite Hnone in Hskip.
  apply orb_false_elim in Hskip as [H1 H2].
  destruct (str_truthy (saltenv self)); simpl in *.
  - apply negb_false_iff in H1. unfold opt_str_eqb in H1.
    destruct (saltenv self); [|discriminate].
    apply String.eqb_eq in H1. now subst.
  - apply negb_false_iff in H2. now apply String.eqb_eq in H2.
Qed.

Lemma none_strategy_scans_one_environment_witness :
  skip_env Sample2.none_self "dev" = false /\
  (opt_str_eqb
     (opt_pillar_source_merging_strategy (opts Sample2.none_self)) "none"
   = true ->
   if str_truthy (saltenv Sample2.none_self)
   then saltenv Sample2.none_self = Some "dev"
   else "dev" = "base").
Proof.
  apply (none_strategy_scans_one_environment Sample.ext_first_collab
           Sample2.none_self "dev"
           [{| top_include := None;
               top_envs := [("base", [("*", [VStr "foo"])])] |}]
           eq_refl eq_refl).
Defined.
